(** * Gateway service resolver, PM2 adapter and proxy-fetch registry

    A shallow embedding of the daemon layer (the PM2 adapter [pm2.ts] and
    the platform resolver [service.ts]) and of [src/infra/proxy-fetch.ts],
    followed by the properties of the specification that are settled on
    it.

    Asynchronous functions are run to completion one after the other by
    their caller, so a [Promise<A>] is embedded as a computation in a
    state-and-exception monad over the history of interactions with the
    host: every child process spawned and every line written to the
    output stream is appended to that history, and what the host answers
    may depend on everything that happened before. *)

From Stdlib Require Import String Ascii List ZArith Bool Lia.
Import ListNotations.
Local Open Scope string_scope.
Local Open Scope Z_scope.

(* ================================================================== *)
(** * JavaScript values, strings and exceptions *)
(* ================================================================== *)

(** Values that [JSON.parse] can produce, plus [undefined] (the result
    of reading an absent property).  Numbers are only carried around by
    the code (a pid, an exit code), never computed on, and are modelled
    as integers.  An object is the association list of its own
    properties; reading a key returns the first binding. *)
#[warnings="-register-all"]
Inductive JsVal : Type :=
| JUndefined
| JNull
| JBool (b : bool)
| JNum (n : Z)
| JStr (s : string)
| JArr (items : list JsVal)
| JObj (props : list (string * JsVal)).

(** What a [throw] carries.  Only the properties the code inspects are
    kept: [typeof e.x === "string"] is [Some], anything else [None]. *)
Record Exn : Type := mkExn {
  ex_name    : string;
  ex_message : option string;
  ex_stdout  : option string;
  ex_stderr  : option string;
  ex_code    : option Z
}.

(** [new Error(msg)] *)
Definition Error (msg : string) : Exn :=
  mkExn "Error" (Some msg) None None None.

(** [new TypeError(msg)], raised by the runtime on [undefined.x],
    [null.x], calling a non-function or spreading a non-iterable. *)
Definition TypeError (msg : string) : Exn :=
  mkExn "TypeError" (Some msg) None None None.

Inductive Result (A : Type) : Type :=
| Ok (a : A)
| Throw (e : Exn).
Arguments Ok {A} a.
Arguments Throw {A} e.

Definition is_ok {A} (r : Result A) : bool :=
  match r with Ok _ => true | Throw _ => false end.

(** [String(err)] for an error object: [Error.prototype.toString]. *)
Definition String_of_exn (e : Exn) : string :=
  let msg := match ex_message e with Some m => m | None => "" end in
  if String.eqb msg "" then ex_name e
  else if String.eqb (ex_name e) "" then msg
  else ex_name e ++ ": " ++ msg.

(** [a || b] on strings: the empty string is the only falsy one. *)
Definition str_or (a b : string) : string :=
  if String.eqb a "" then b else a.

(** Truthiness of a value ([!v], [v || w], [if (v)]). *)
Definition truthy (v : JsVal) : bool :=
  match v with
  | JUndefined | JNull => false
  | JBool b => b
  | JNum n => negb (n =? 0)
  | JStr s => negb (String.eqb s "")
  | JArr _ | JObj _ => true
  end.

(** [v === "s"]: strict equality with a string. *)
Definition strict_eq_str (v : JsVal) (s : string) : bool :=
  match v with
  | JStr t => String.eqb t s
  | _ => false
  end.

Fixpoint assoc (k : string) (props : list (string * JsVal)) : JsVal :=
  match props with
  | [] => JUndefined
  | (k', v) :: rest => if String.eqb k k' then v else assoc k rest
  end.

(** [v.k] for the property names the code reads ([name], [pm2_env],
    [status], [pid], [exit_code], [args], ...): none of them is defined
    on a prototype, so on a primitive or an array the read is
    [undefined], and on [undefined] or [null] it is a [TypeError]. *)
Definition get (v : JsVal) (k : string) : Result JsVal :=
  match v with
  | JUndefined | JNull =>
      Throw (TypeError ("Cannot read properties of undefined (reading '" ++ k ++ "')"))
  | JObj props => Ok (assoc k props)
  | _ => Ok JUndefined
  end.

(** Strings are sequences of code units below 256; of the characters
    [String.prototype.trim] strips, these are TAB, LF, VT, FF, CR,
    SPACE and NBSP. *)
Definition is_ws (c : ascii) : bool :=
  let n := nat_of_ascii c in
  (((9 <=? n) && (n <=? 13)) || (n =? 32) || (n =? 160))%nat.

Fixpoint trimStart (s : string) : string :=
  match s with
  | EmptyString => EmptyString
  | String c s' => if is_ws c then trimStart s' else s
  end.

Fixpoint trimEnd (s : string) : string :=
  match s with
  | EmptyString => EmptyString
  | String c s' =>
      let t := trimEnd s' in
      if is_ws c && String.eqb t "" then EmptyString else String c t
  end.

Definition trim (s : string) : string := trimEnd (trimStart s).

(** [Array.prototype.find] with a predicate that may throw. *)
Fixpoint find_throwing (pred : JsVal -> Result bool) (items : list JsVal)
  : Result JsVal :=
  match items with
  | [] => Ok JUndefined
  | p :: rest =>
      match pred p with
      | Throw e => Throw e
      | Ok true => Ok p
      | Ok false => find_throwing pred rest
      end
  end.

(** [list.find(pred)] on an arbitrary parsed value: only arrays have a
    callable [find]. *)
Definition js_find (list : JsVal) (pred : JsVal -> Result bool) : Result JsVal :=
  match list with
  | JArr items => find_throwing pred items
  | JUndefined | JNull =>
      Throw (TypeError "Cannot read properties of null (reading 'find')")
  | _ => Throw (TypeError "list.find is not a function")
  end.

Fixpoint chars (s : string) : list JsVal :=
  match s with
  | EmptyString => []
  | String c s' => JStr (String c EmptyString) :: chars s'
  end.

(** [...v] inside an array literal: arrays and strings are iterable. *)
Definition spread (v : JsVal) : Result (list JsVal) :=
  match v with
  | JArr items => Ok items
  | JStr s => Ok (chars s)
  | _ => Throw (TypeError "args is not iterable")
  end.

(* ================================================================== *)
(** * The host and the monad of asynchronous computations *)
(* ================================================================== *)

(** An element of [argv]; [None] is [undefined], which is what
    [programArguments[1]] is on a too short array. *)
Definition Arg : Type := option string.

Inductive Event : Type :=
| EvExec (file : string) (args : list Arg)   (* a child process was spawned *)
| EvWrite (text : string).                   (* [stdout.write(text)] *)

(** The history of interactions, oldest first. *)
Definition World : Type := list Event.

Definition M (A : Type) : Type := World -> Result A * World.

Definition ret {A} (a : A) : M A := fun w => (Ok a, w).

Definition throw {A} (e : Exn) : M A := fun w => (Throw e, w).

Definition bind {A B} (m : M A) (k : A -> M B) : M B :=
  fun w =>
    match m w with
    | (Ok a, w') => k a w'
    | (Throw e, w') => (Throw e, w')
    end.

(** [try { m } catch (e) { handler e }] *)
Definition try_catch {A} (m : M A) (handler : Exn -> M A) : M A :=
  fun w =>
    match m w with
    | (Ok a, w') => (Ok a, w')
    | (Throw e, w') => handler e w'
    end.

(** A synchronous computation that may throw, run inside an async body. *)
Definition lift {A} (r : Result A) : M A := fun w => (r, w).

Definition rbind {A B} (r : Result A) (k : A -> Result B) : Result B :=
  match r with
  | Ok a => k a
  | Throw e => Throw e
  end.

Declare Scope js_scope.
Delimit Scope js_scope with js.
Notation "x <- m ;; k" := (bind m (fun x => k))
  (at level 61, m at next level, right associativity) : js_scope.
Notation "m ;; k" := (bind m (fun _ => k))
  (at level 61, right associativity) : js_scope.
Notation "x <~ r ;; k" := (rbind r (fun x => k))
  (at level 61, r at next level, right associativity) : js_scope.
Local Open Scope js_scope.

(** [stdout.write(text)] *)
Definition stdout_write (text : string) : M unit :=
  fun w => (Ok tt, (w ++ [EvWrite text])%list).

(** [Record<string, string | undefined>] *)
Definition Env : Type := string -> option string.

(** [{}] *)
Definition empty_env : Env := fun _ => None.

(** Modelled from the spec: the type [GatewayServiceRuntime] of
    [service-runtime.ts], which is not part of the sources at hand
    (RuntimeStatus, section 3 of the specification): a status out of
    running, stopped and unknown, and the optional fields [state], [pid],
    [lastExitStatus], [missingUnit] and [detail].  The first three are
    copied out of parsed JSON and hold whatever value was found there;
    [JUndefined] and [None] stand for an absent field. *)
Inductive Status : Type := running | stopped | unknown.

Record GatewayServiceRuntime : Type := mkRuntime {
  status         : Status;
  state          : JsVal;
  pid            : JsVal;
  lastExitStatus : JsVal;
  missingUnit    : option bool;
  detail         : option string
}.

(** [!rt.missingUnit] is false exactly on [missingUnit: true]. *)
Definition missing (rt : GatewayServiceRuntime) : bool :=
  match missingUnit rt with Some true => true | _ => false end.

(** The result of [readCommand]. *)
Record CommandSnapshot : Type := mkSnapshot {
  snap_programArguments : list JsVal;
  snap_workingDirectory : JsVal;
  snap_environment      : JsVal;
  snap_sourcePath       : JsVal
}.

(** [GatewayServiceInstallArgs]; the output stream [stdout] of the
    argument objects is the history itself. *)
Record GatewayServiceInstallArgs : Type := mkInstallArgs {
  env              : Env;
  programArguments : list string;
  workingDirectory : option string;
  environment      : option Env;
  description      : option string
}.

(** What the daemon layer takes from outside: the promisified
    [execFile] of node (what a spawned process answers, given everything
    that happened before: [Ok (stdout, stderr)] when the promise resolves,
    the rejection otherwise), [JSON.parse] ([None] when it throws a
    [SyntaxError]), the naming function of [constants.ts] and the
    colouring helpers of [terminal/theme.ts]. *)
Class Host : Type := {
  execFile_outcome : World -> string -> list Arg -> Result (option string * option string);
  JSON_parse : string -> option JsVal;
  resolveGatewaySystemdServiceName : option string -> string;
  Color : Type;
  theme_muted : Color;
  theme_command : Color;
  isRich : bool;
  colorize : bool -> Color -> string -> string
}.

(* ================================================================== *)
(** * pm2.ts *)
(* ================================================================== *)

Record ExecResult : Type := mkExecResult {
  stdout : string;
  stderr : string;
  code   : Z
}.

Section Pm2.
Context `{Host}.

(** [promisify(execFile)(file, args, { encoding: "utf8" })] *)
Definition execFileAsync (file : string) (args : list Arg)
  : M (option string * option string) :=
  fun w => (execFile_outcome w file args, (w ++ [EvExec file args])%list).

Definition formatLine (label value : string) : string :=
  let rich := isRich in
  colorize rich theme_muted (label ++ ":") ++ " " ++ colorize rich theme_command value.

(** [String(x ?? "")] on the output of a process read as utf8. *)
Definition string_or_empty (x : option string) : string :=
  match x with Some s => s | None => "" end.

Definition execPm2 (args : list Arg) : M ExecResult :=
  try_catch
    (out <- execFileAsync "pm2" args ;;
     ret (mkExecResult (string_or_empty (fst out)) (string_or_empty (snd out)) 0))
    (fun e =>
       ret (mkExecResult
              (match ex_stdout e with Some s => s | None => "" end)
              (match ex_stderr e with
               | Some s => s
               | None => match ex_message e with Some m => m | None => "" end
               end)
              (match ex_code e with Some n => n | None => 1 end))).

Definition isPm2Available : M bool :=
  res <- execPm2 [Some "--version"] ;;
  ret (code res =? 0).

Definition assertPm2Available : M unit :=
  available <- isPm2Available ;;
  if negb available
  then throw (Error "pm2 not available; please install it globally with `npm install -g pm2`")
  else ret tt.

Definition resolvePm2ServiceName (e : Env) : string :=
  resolveGatewaySystemdServiceName (e "CLAWDBOT_PROFILE").

Definition installPm2Service (a : GatewayServiceInstallArgs) : M unit :=
  assertPm2Available ;;
  let serviceName := resolvePm2ServiceName (env a) in
  execPm2 [Some "delete"; Some serviceName] ;;
  let script := nth_error (programArguments a) 1 in
  let args := skipn 2 (programArguments a) in
  let interpreter := nth_error (programArguments a) 0 in
  let pm2Args :=
    ([Some "start"; script; Some "--name"; Some serviceName;
      Some "--interpreter"; interpreter; Some "--"] ++ map Some args)%list in
  start <- execPm2 pm2Args ;;
  if negb (code start =? 0)
  then throw (Error (trim ("pm2 start failed: " ++ str_or (stderr start) (stdout start))))
  else
    save <- execPm2 [Some "save"] ;;
    if negb (code save =? 0)
    then throw (Error (trim ("pm2 save failed: " ++ str_or (stderr save) (stdout save))))
    else
      stdout_write (String "010" "") ;;
      stdout_write (formatLine "Installed PM2 service" serviceName ++ String "010" "").

Definition uninstallPm2Service (e : Env) : M unit :=
  assertPm2Available ;;
  let serviceName := resolvePm2ServiceName e in
  execPm2 [Some "delete"; Some serviceName] ;;
  execPm2 [Some "save"] ;;
  stdout_write (formatLine "Removed PM2 service" serviceName ++ String "010" "").

Definition stopPm2Service (e : option Env) : M unit :=
  assertPm2Available ;;
  let serviceName :=
    resolvePm2ServiceName (match e with Some e' => e' | None => empty_env end) in
  execPm2 [Some "stop"; Some serviceName] ;;
  stdout_write (formatLine "Stopped PM2 service" serviceName ++ String "010" "").

Definition restartPm2Service (e : option Env) : M unit :=
  assertPm2Available ;;
  let serviceName :=
    resolvePm2ServiceName (match e with Some e' => e' | None => empty_env end) in
  execPm2 [Some "restart"; Some serviceName] ;;
  stdout_write (formatLine "Restarted PM2 service" serviceName ++ String "010" "").

Definition isPm2ServiceEnabled (e : option Env) : M bool :=
  available <- isPm2Available ;;
  if negb available then ret false
  else
    let serviceName :=
      resolvePm2ServiceName (match e with Some e' => e' | None => empty_env end) in
    res <- execPm2 [Some "describe"; Some serviceName] ;;
    ret (code res =? 0).

(** [JSON.parse(text)] *)
Definition parse (text : string) : Result JsVal :=
  match JSON_parse text with
  | Some v => Ok v
  | None => Throw (mkExn "SyntaxError" (Some "Unexpected token in JSON") None None None)
  end.

(** [list.find((p) => p.name === serviceName)] *)
Definition find_app (list : JsVal) (serviceName : string) : Result JsVal :=
  js_find list (fun p => n <~ get p "name" ;; Ok (strict_eq_str n serviceName)).

(** The body of the second [try] block of [readPm2ServiceRuntime]. *)
Definition runtime_of_jlist (text serviceName : string) : Result GatewayServiceRuntime :=
  list <~ parse text ;;
  app <~ find_app list serviceName ;;
  if negb (truthy app)
  then Ok (mkRuntime stopped JUndefined JUndefined JUndefined (Some true) None)
  else
    pm2_env <~ get app "pm2_env" ;;
    st <~ get pm2_env "status" ;;
    let status := if strict_eq_str st "online" then running else stopped in
    app_pid <~ get app "pid" ;;
    exit_code <~ get pm2_env "exit_code" ;;
    Ok (mkRuntime status st app_pid exit_code None None).

Definition readPm2ServiceRuntime (e : Env) : M GatewayServiceRuntime :=
  fun w =>
    match assertPm2Available w with
    | (Throw err, w1) =>
        (Ok (mkRuntime unknown JUndefined JUndefined JUndefined None
               (Some (String_of_exn err))), w1)
    | (Ok _, w1) =>
        (let serviceName := resolvePm2ServiceName e in
         res <- execPm2 [Some "jlist"] ;;
         if negb (code res =? 0)
         then ret (mkRuntime unknown JUndefined JUndefined JUndefined None
                     (Some (str_or (stderr res) (stdout res))))
         else
           try_catch
             (lift (runtime_of_jlist (stdout res) serviceName))
             (fun _ => ret (mkRuntime unknown JUndefined JUndefined JUndefined None None)))
          w1
    end.

(** The body of the [try] block of [readPm2ServiceCommand]. *)
Definition command_of_jlist (text serviceName : string) : Result (option CommandSnapshot) :=
  list <~ parse text ;;
  app <~ find_app list serviceName ;;
  if negb (truthy app) then Ok None
  else
    pm2_env <~ get app "pm2_env" ;;
    execPath <~ get pm2_env "pm_exec_path" ;;
    raw_args <~ get pm2_env "args" ;;
    let args := if truthy raw_args then raw_args else JArr [] in
    interpreter <~ get pm2_env "exec_interpreter" ;;
    rest <~ spread args ;;
    cwd <~ get pm2_env "cwd" ;;
    environment <~ get pm2_env "env" ;;
    Ok (Some (mkSnapshot (interpreter :: execPath :: rest) cwd environment JUndefined)).

Definition readPm2ServiceCommand (e : Env) : M (option CommandSnapshot) :=
  let serviceName := resolvePm2ServiceName e in
  res <- execPm2 [Some "jlist"] ;;
  if negb (code res =? 0) then ret None
  else
    try_catch
      (lift (command_of_jlist (stdout res) serviceName))
      (fun _ => ret None).

End Pm2.

(* ================================================================== *)
(** * service.ts *)
(* ================================================================== *)

(** The adapters imported from [launchd.ts], [systemd.ts] and
    [schtasks.ts], which are not part of the sources at hand: each
    function is an arbitrary asynchronous computation of its type, which
    may change the history and may throw. *)
Class Launchd : Type := {
  installLaunchAgent : GatewayServiceInstallArgs -> M unit;
  isLaunchAgentLoaded : option Env -> M bool;
  readLaunchAgentProgramArguments : Env -> M (option CommandSnapshot);
  readLaunchAgentRuntime : Env -> M GatewayServiceRuntime;
  restartLaunchAgent : option Env -> M unit;
  stopLaunchAgent : option Env -> M unit;
  uninstallLaunchAgent : Env -> M unit
}.

Class Systemd : Type := {
  installSystemdService : GatewayServiceInstallArgs -> M unit;
  isSystemdServiceEnabled : option Env -> M bool;
  isSystemdUserServiceAvailable : M bool;
  readSystemdServiceExecStart : Env -> M (option CommandSnapshot);
  readSystemdServiceRuntime : Env -> M GatewayServiceRuntime;
  restartSystemdService : option Env -> M unit;
  stopSystemdService : option Env -> M unit;
  uninstallSystemdService : Env -> M unit
}.

Class Schtasks : Type := {
  installScheduledTask : GatewayServiceInstallArgs -> M unit;
  isScheduledTaskInstalled : option Env -> M bool;
  readScheduledTaskCommand : Env -> M (option CommandSnapshot);
  readScheduledTaskRuntime : Env -> M GatewayServiceRuntime;
  restartScheduledTask : option Env -> M unit;
  stopScheduledTask : option Env -> M unit;
  uninstallScheduledTask : Env -> M unit
}.

Record GatewayService : Type := mkGatewayService {
  label         : string;
  loadedText    : string;
  notLoadedText : string;
  install       : GatewayServiceInstallArgs -> M unit;
  uninstall     : Env -> M unit;
  stop          : option Env -> M unit;
  restart       : option Env -> M unit;
  isLoaded      : option Env -> M bool;
  readCommand   : Env -> M (option CommandSnapshot);
  readRuntime   : Env -> M GatewayServiceRuntime
}.

Section Service.
Context `{Host} `{Launchd} `{Systemd} `{Schtasks}.

(** The operations of the object returned on linux, one definition for
    each arrow function of the object literal. *)
Definition linux_install (args : GatewayServiceInstallArgs) : M unit :=
  sd <- isSystemdUserServiceAvailable ;;
  if sd then installSystemdService args
  else
    pm <- isPm2Available ;;
    if pm then installPm2Service args
    else installSystemdService args.

Definition linux_uninstall (args : Env) : M unit :=
  sd <- isSystemdUserServiceAvailable ;;
  (if sd then try_catch (uninstallSystemdService args) (fun _ => ret tt) else ret tt) ;;
  pm <- isPm2Available ;;
  (if pm then try_catch (uninstallPm2Service args) (fun _ => ret tt) else ret tt).

(** [(await a()) && (await b())]: [b] runs only when [a] answered true. *)
Definition and_then (a b : M bool) : M bool :=
  x <- a ;; if x then b else ret false.

Definition linux_stop (args : option Env) : M unit :=
  c1 <- and_then isSystemdUserServiceAvailable (isSystemdServiceEnabled args) ;;
  if c1 then stopSystemdService args
  else
    c2 <- and_then isPm2Available (isPm2ServiceEnabled args) ;;
    if c2 then stopPm2Service args
    else stopSystemdService args.

Definition linux_restart (args : option Env) : M unit :=
  c1 <- and_then isSystemdUserServiceAvailable (isSystemdServiceEnabled args) ;;
  if c1 then restartSystemdService args
  else
    c2 <- and_then isPm2Available (isPm2ServiceEnabled args) ;;
    if c2 then restartPm2Service args
    else
      sd <- isSystemdUserServiceAvailable ;;
      if sd then restartSystemdService args
      else
        pm <- isPm2Available ;;
        if pm then restartPm2Service args
        else restartSystemdService args.

Definition linux_isLoaded (args : option Env) : M bool :=
  sd <- isSystemdUserServiceAvailable ;;
  en <- (if sd then isSystemdServiceEnabled args else ret false) ;;
  if en then ret true
  else
    pm <- isPm2Available ;;
    en2 <- (if pm then isPm2ServiceEnabled args else ret false) ;;
    if en2 then ret true else ret false.

Definition linux_readCommand (e : Env) : M (option CommandSnapshot) :=
  sd <- isSystemdUserServiceAvailable ;;
  cmd <- (if sd then readSystemdServiceExecStart e else ret None) ;;
  match cmd with
  | Some c => ret (Some c)
  | None =>
      pm <- isPm2Available ;;
      cmd2 <- (if pm then readPm2ServiceCommand e else ret None) ;;
      match cmd2 with
      | Some c => ret (Some c)
      | None => ret None
      end
  end.

Definition systemd_pm2_unavailable : GatewayServiceRuntime :=
  mkRuntime unknown JUndefined JUndefined JUndefined None (Some "Systemd/PM2 unavailable").

Definition linux_readRuntime (e : Env) : M GatewayServiceRuntime :=
  sd <- isSystemdUserServiceAvailable ;;
  early <- (if sd
            then rt <- readSystemdServiceRuntime e ;;
                 ret (if negb (missing rt) then Some rt else None)
            else ret None) ;;
  match early with
  | Some rt => ret rt
  | None =>
      pm <- isPm2Available ;;
      if pm then readPm2ServiceRuntime e
      else ret systemd_pm2_unavailable
  end.

(** [process.platform] is passed as an argument. *)
Definition resolveGatewayService (platform : string) : Result GatewayService :=
  if String.eqb platform "darwin" then
    Ok (mkGatewayService "LaunchAgent" "loaded" "not loaded"
          (fun args => installLaunchAgent args)
          (fun args => uninstallLaunchAgent args)
          (fun args => stopLaunchAgent args)
          (fun args => restartLaunchAgent args)
          (fun args => isLaunchAgentLoaded args)
          readLaunchAgentProgramArguments
          readLaunchAgentRuntime)
  else if String.eqb platform "linux" then
    Ok (mkGatewayService "Systemd/PM2" "active" "inactive"
          linux_install linux_uninstall linux_stop linux_restart
          linux_isLoaded linux_readCommand linux_readRuntime)
  else if String.eqb platform "win32" then
    Ok (mkGatewayService "Scheduled Task" "registered" "missing"
          (fun args => installScheduledTask args)
          (fun args => uninstallScheduledTask args)
          (fun args => stopScheduledTask args)
          (fun args => restartScheduledTask args)
          (fun args => isScheduledTaskInstalled args)
          readScheduledTaskCommand
          (fun e => readScheduledTaskRuntime e))
  else Throw (Error ("Gateway service install not supported on " ++ platform)).

End Service.

(* ================================================================== *)
(** * src/infra/proxy-fetch.ts *)
(* ================================================================== *)

Module ProxyFetch.

(** What the module takes from outside: the type of function values
    that can sit in [globalThis.fetch], the [ProxyAgent] class of undici
    (its constructor throws on a URL it cannot use), and
    [wrapFetchWithAbortSignal] of [fetch.ts] applied to the closure
    [proxyFetch] built around an agent. *)
Class Undici : Type := {
  Fetch : Type;
  Agent : Type;
  ProxyAgent : string -> Result Agent;
  wrapped_proxyFetch : Agent -> Fetch
}.

Section Registry.
Context `{Undici}.

(** The three module variables and the global the module assigns.
    [globalThis.fetch] always holds a function; a function value is
    truthy, so [!originalFetch] holds exactly when the variable is
    [undefined].  The closure [proxyFetch] reads [originalFetch] when it
    is called, not when it is built: the value stored in the global
    depends on the agent only. *)
Record State : Type := mkState {
  originalFetch     : option Fetch;
  proxyInstalled    : bool;
  installedProxyUrl : option string;
  globalThis_fetch  : Fetch
}.

(** The module as loaded, [f0] being the fetch of the runtime. *)
Definition initial (f0 : Fetch) : State := mkState None false None f0.

Definition env_proxy (process_env : Env) : option string :=
  let v := str_or (string_or_empty (process_env "HTTPS_PROXY"))
          (str_or (string_or_empty (process_env "HTTP_PROXY"))
          (str_or (string_or_empty (process_env "https_proxy"))
                  (string_or_empty (process_env "http_proxy")))) in
  if String.eqb v "" then None else Some v.

Definition resolveProxyUrl (process_env : Env) (configProxy : option string)
  : option string :=
  match option_map trim configProxy with
  | Some trimmed =>
      if negb (String.eqb trimmed "") then Some trimmed else env_proxy process_env
  | None => env_proxy process_env
  end.

Definition uninstallProxyFetch (s : State) : State :=
  match proxyInstalled s, originalFetch s with
  | true, Some f => mkState None false None f
  | _, _ => s
  end.

(** [installedProxyUrl === proxyUrl] *)
Definition same_url (installed : option string) (proxyUrl : string) : bool :=
  match installed with
  | Some u => String.eqb u proxyUrl
  | None => false
  end.

(** The statements of [installProxyFetch] after the guard. *)
Definition install_fresh (proxyUrl : string) (s : State) : Result unit * State :=
  let s1 := mkState (Some (globalThis_fetch s)) (proxyInstalled s)
                    (installedProxyUrl s) (globalThis_fetch s) in
  match ProxyAgent proxyUrl with
  | Throw e => (Throw e, s1)
  | Ok agent =>
      (Ok tt, mkState (originalFetch s1) true (Some proxyUrl) (wrapped_proxyFetch agent))
  end.

Definition installProxyFetch (proxyUrl : string) (s : State) : Result unit * State :=
  if proxyInstalled s then
    if same_url (installedProxyUrl s) proxyUrl then (Ok tt, s)
    else install_fresh proxyUrl (uninstallProxyFetch s)
  else install_fresh proxyUrl s.

Definition isProxyFetchInstalled (s : State) : bool := proxyInstalled s.

Definition getInstalledProxyUrl (s : State) : option string := installedProxyUrl s.

(** A caller of the module: any sequence of the two state-changing
    exports, going on after a call that threw. *)
Inductive Call : Type :=
| call_install (proxyUrl : string)
| call_uninstall.

Definition step (s : State) (c : Call) : State :=
  match c with
  | call_install u => snd (installProxyFetch u s)
  | call_uninstall => uninstallProxyFetch s
  end.

Definition run (calls : list Call) (s : State) : State := fold_left step calls s.

(** What the states reached from [initial f0] look like: either no
    proxy is installed and the global is the fetch of the runtime (a
    reference to it may have been left in [originalFetch] by an install
    that threw), or a proxy is installed over the saved fetch of the
    runtime. *)
Definition consistent (f0 : Fetch) (s : State) : Prop :=
  if proxyInstalled s
  then originalFetch s = Some f0
       /\ exists u agent,
            installedProxyUrl s = Some u /\ ProxyAgent u = Ok agent
            /\ globalThis_fetch s = wrapped_proxyFetch agent
  else installedProxyUrl s = None /\ globalThis_fetch s = f0
       /\ (originalFetch s = None \/ originalFetch s = Some f0).

(** A call during which no construction of an agent throws. *)
Definition call_builds (c : Call) : Prop :=
  match c with
  | call_install proxyUrl => exists agent, ProxyAgent proxyUrl = Ok agent
  | call_uninstall => True
  end.

(** The invariant as the module suggests it: the three variables are
    set and cleared together. *)
Definition in_step (s : State) : Prop :=
  (proxyInstalled s = true <-> installedProxyUrl s <> None)
  /\ (installedProxyUrl s <> None <-> originalFetch s <> None).

End Registry.
End ProxyFetch.

(* ================================================================== *)
(** * Specification-side definitions *)
(* ================================================================== *)

(** A computation that, whatever happened before, completes without
    throwing and yields [a]. *)
Definition answers {A} (m : M A) (a : A) : Prop :=
  forall w, exists w', m w = (Ok a, w').


(** The precedence of section 4.2 for [stop] and [restart], in the
    words of the specification: the systemd-user operation when
    systemd-user is available and has the service enabled, otherwise the
    PM2 operation when PM2 is available and has the service enabled,
    otherwise the systemd-user operation, forced. *)
Definition spec_precedence {A} (sa se pa pe : bool) (systemd_op pm2_op : M A) : M A :=
  if sa && se then systemd_op
  else if pa && pe then pm2_op
  else systemd_op.

(** What [restart] does in the last resort: it looks at availability
    once more. *)
Definition restart_precedence {A} (sa se pa pe : bool) (systemd_op pm2_op : M A) : M A :=
  if sa && se then systemd_op
  else if pa && pe then pm2_op
  else if sa then systemd_op
  else if pa then pm2_op
  else systemd_op.

(** The fixed labels of the specification. *)
Definition fixed_label (platform : string) : option string :=
  if String.eqb platform "darwin" then Some "LaunchAgent"
  else if String.eqb platform "linux" then Some "Systemd/PM2"
  else if String.eqb platform "win32" then Some "Scheduled Task"
  else None.

Definition nullish (v : JsVal) : bool :=
  match v with JUndefined | JNull => true | _ => false end.

(** The entry of a process list whose [name] is [serviceName]. *)
Definition named (serviceName : string) (p : JsVal) : bool :=
  match p with
  | JObj props => strict_eq_str (assoc "name" props) serviceName
  | _ => false
  end.

Definition entry_named (serviceName : string) (items : list JsVal) : option JsVal :=
  List.find (named serviceName) items.

(** The message of the error [assertPm2Available] throws. *)
Definition not_available : string :=
  "pm2 not available; please install it globally with `npm install -g pm2`".

(** [{ status: "unknown", detail }] *)
Definition unknown_because (why : option string) : GatewayServiceRuntime :=
  mkRuntime unknown JUndefined JUndefined JUndefined None why.

Section Pm2Answers.
Context `{Host}.

(** What [pm2 args] answers after the history [w], as [execPm2]
    reports it. *)
Definition pm2_answer (w : World) (args : list Arg) : ExecResult :=
  match fst (execPm2 args w) with
  | Ok r => r
  | Throw _ => mkExecResult "" "" 1
  end.

Definition pm2 (args : list string) : Event := EvExec "pm2" (map Some args).

(** The availability of PM2 does not change over time. *)
Definition pm2_availability (pa : bool) : Prop :=
  forall w, (code (pm2_answer w [Some "--version"]) =? 0) = pa.

End Pm2Answers.

Section Precedence.
Context `{Host} `{Systemd}.

(** One of the four probes of the linux adapter ran and answered. *)
Inductive probe_step (args : option Env) : World -> World -> Prop :=
| probe_systemd_available w b w' :
    isSystemdUserServiceAvailable w = (Ok b, w') -> probe_step args w w'
| probe_systemd_enabled w b w' :
    isSystemdServiceEnabled args w = (Ok b, w') -> probe_step args w w'
| probe_pm2_available w b w' :
    isPm2Available w = (Ok b, w') -> probe_step args w w'
| probe_pm2_enabled w b w' :
    isPm2ServiceEnabled args w = (Ok b, w') -> probe_step args w w'.

(** The history [w1] comes from [w] by probing alone: nothing was
    stopped, restarted, installed or removed in between. *)
Inductive probed (args : option Env) : World -> World -> Prop :=
| probed_refl w : probed args w w
| probed_step w w1 w2 :
    probe_step args w w1 -> probed args w1 w2 -> probed args w w2.

(** An operation of the linux adapter follows a precedence when, for
    every configuration of the two backends (what the four probes
    answer), it does nothing but probe and then ends as the operation of
    the backend that the precedence names. *)
Definition follows_precedence
    (precedence : bool -> bool -> bool -> bool -> M unit -> M unit -> M unit)
    (operation systemd_op pm2_op : option Env -> M unit) : Prop :=
  forall (sa se pa pe : bool) (args : option Env),
    answers isSystemdUserServiceAvailable sa ->
    answers (isSystemdServiceEnabled args) se ->
    answers isPm2Available pa ->
    answers (isPm2ServiceEnabled args) pe ->
    forall w, exists w1,
      probed args w w1
      /\ operation args w = precedence sa se pa pe (systemd_op args) (pm2_op args) w1.


End Precedence.

(* ================================================================== *)
(** * Concrete hosts, on which the statements are exercised *)
(* ================================================================== *)

Module Fixture.

Definition Output : Type := Result (option string * option string).

(** A process that exits with [c] after printing [out] and [err]. *)
Definition exits (c : Z) (out err : string) : Output :=
  if c =? 0 then Ok (Some out, Some err)
  else Throw (mkExn "Error" (Some "Command failed: pm2") (Some out) (Some err) (Some c)).

(** The binary is not on the PATH. *)
Definition enoent : Output :=
  Throw (mkExn "Error" (Some "spawn pm2 ENOENT") None None None).

(** What each [pm2] subcommand answers, whatever happened before. *)
Record Script : Type := mkScript {
  on_version  : Output;
  on_describe : Output;
  on_jlist    : Output;
  on_delete   : Output;
  on_start    : Output;
  on_save     : Output;
  on_stop     : Output;
  on_restart  : Output
}.

Definition scripted (s : Script) (args : list Arg) : Output :=
  match args with
  | Some cmd :: _ =>
      if String.eqb cmd "--version" then on_version s
      else if String.eqb cmd "describe" then on_describe s
      else if String.eqb cmd "jlist" then on_jlist s
      else if String.eqb cmd "delete" then on_delete s
      else if String.eqb cmd "start" then on_start s
      else if String.eqb cmd "save" then on_save s
      else if String.eqb cmd "stop" then on_stop s
      else if String.eqb cmd "restart" then on_restart s
      else exits 1 "" "unknown command"
  | _ => exits 1 "" "usage: pm2 [cmd] app"
  end.

Definition dq : string := String "034" "".
Definition q (s : string) : string := dq ++ s ++ dq.

(** The output of [pm2 jlist] with one process, [svc], online. *)
Definition jlist_text : string :=
  "[{" ++ q "name" ++ ":" ++ q "svc" ++ "," ++ q "pm2_env" ++ ":{" ++ q "status" ++ ":"
  ++ q "online" ++ "," ++ q "exit_code" ++ ":0}," ++ q "pid" ++ ":123}]".

Definition jlist_value : JsVal :=
  JArr [JObj [("name", JStr "svc");
              ("pm2_env", JObj [("status", JStr "online"); ("exit_code", JNum 0)]);
              ("pid", JNum 123)]].

(** The same process list without the [pm2_env] field. *)
Definition jlist_text_no_env : string :=
  "[{" ++ q "name" ++ ":" ++ q "svc" ++ "," ++ q "pid" ++ ":123}]".

(** [JSON.parse] on the few texts the scripts print. *)
Definition json (text : string) : option JsVal :=
  if String.eqb text jlist_text then Some jlist_value
  else if String.eqb text "[]" then Some (JArr [])
  else if String.eqb text jlist_text_no_env
       then Some (JArr [JObj [("name", JStr "svc"); ("pid", JNum 123)]])
  else None.

Definition host (s : Script) : Host := {|
  execFile_outcome := fun _ file args =>
    if String.eqb file "pm2" then scripted s args else enoent;
  JSON_parse := json;
  resolveGatewaySystemdServiceName := fun profile =>
    match profile with
    | Some p => "svc-" ++ p
    | None => "svc"
    end;
  Color := unit;
  theme_muted := tt;
  theme_command := tt;
  isRich := false;
  colorize := fun _ _ text => text
|}.

(** PM2 installed, every subcommand succeeds, [svc] is online. *)
Definition healthy : Script :=
  mkScript (exits 0 "5.3.0" "") (exits 0 "" "") (exits 0 jlist_text "")
           (exits 0 "" "") (exits 0 "" "") (exits 0 "" "") (exits 0 "" "") (exits 0 "" "").

(** PM2 installed, but the service was never registered with it. *)
Definition unregistered : Script :=
  mkScript (exits 0 "5.3.0" "") (exits 1 "" "svc doesn't exist") (exits 0 "[]" "")
           (exits 1 "" "[PM2][ERROR] Process or Namespace svc not found")
           (exits 0 "" "") (exits 0 "" "")
           (exits 1 "" "[PM2][ERROR] Process or Namespace svc not found")
           (exits 1 "" "[PM2][ERROR] Process or Namespace svc not found").

(** PM2 installed, [pm2 start] fails. *)
Definition start_fails : Script :=
  mkScript (exits 0 "5.3.0" "") (exits 0 "" "") (exits 0 "[]" "")
           (exits 0 "" "") (exits 1 "" "[PM2][ERROR] Script not found: /app/gw.js")
           (exits 0 "" "") (exits 0 "" "") (exits 0 "" "").

(** PM2 is not installed. *)
Definition absent : Script :=
  mkScript enoent enoent enoent enoent enoent enoent enoent enoent.

Definition systemctl (verb : string) : Event :=
  EvExec "systemctl" [Some "--user"; Some verb; Some "svc.service"].

(** A systemd adapter that answers the probes with [available] and
    [enabled], reports [rt], and whose mutating operations spawn
    [systemctl] and throw when [broken]. *)
Definition systemd (available enabled broken : bool) (rt : GatewayServiceRuntime)
  : Systemd :=
  let mutate (verb : string) : M unit :=
    fun w => (if broken then Throw (Error ("systemctl " ++ verb ++ " failed")) else Ok tt,
              (w ++ [systemctl verb])%list) in
  {|
    installSystemdService := fun _ => mutate "enable";
    isSystemdServiceEnabled := fun _ => ret enabled;
    isSystemdUserServiceAvailable := ret available;
    readSystemdServiceExecStart := fun _ => ret None;
    readSystemdServiceRuntime := fun _ => ret rt;
    restartSystemdService := fun _ => mutate "restart";
    stopSystemdService := fun _ => mutate "stop";
    uninstallSystemdService := fun _ => mutate "disable"
  |}.

Definition unit_missing : GatewayServiceRuntime :=
  mkRuntime stopped JUndefined JUndefined JUndefined (Some true) None.

Definition unit_active : GatewayServiceRuntime :=
  mkRuntime running (JStr "active") (JNum 77) JUndefined None None.

Definition launchd : Launchd := {|
  installLaunchAgent := fun _ => ret tt;
  isLaunchAgentLoaded := fun _ => ret true;
  readLaunchAgentProgramArguments := fun _ => ret None;
  readLaunchAgentRuntime := fun _ => ret unit_active;
  restartLaunchAgent := fun _ => ret tt;
  stopLaunchAgent := fun _ => ret tt;
  uninstallLaunchAgent := fun _ => ret tt
|}.

Definition schtasks : Schtasks := {|
  installScheduledTask := fun _ => ret tt;
  isScheduledTaskInstalled := fun _ => ret true;
  readScheduledTaskCommand := fun _ => ret None;
  readScheduledTaskRuntime := fun _ => ret unit_active;
  restartScheduledTask := fun _ => ret tt;
  stopScheduledTask := fun _ => ret tt;
  uninstallScheduledTask := fun _ => ret tt
|}.

(** The install of the scenario of the specification. *)
Definition gw_install : GatewayServiceInstallArgs :=
  mkInstallArgs empty_env ["node"; "/app/gw.js"; "--port"; "3000"] None None None.

(** A proxy registry whose fetch values are [None] for the fetch of
    the runtime and [Some url] for a fetch through the proxy at [url];
    as in undici, the agent cannot be built on the empty URL. *)
Definition undici : ProxyFetch.Undici := {|
  ProxyFetch.Fetch := option string;
  ProxyFetch.Agent := string;
  ProxyFetch.ProxyAgent := fun url =>
    if String.eqb url ""
    then Throw (mkExn "InvalidArgumentError" (Some "Proxy uri is mandatory") None None None)
    else Ok url;
  ProxyFetch.wrapped_proxyFetch := fun agent => Some agent
|}.

(** The fetch of the runtime in that registry. *)
Definition native_fetch : option string := None.

(** Hosts: PM2 with the service online; PM2 without the service;
    PM2 on which [start] fails; no PM2. *)
Definition pm2_online : Host := host healthy.
Definition pm2_only : Host := host unregistered.
Definition pm2_broken_start : Host := host start_fails.
Definition no_pm2 : Host := host absent.

(** systemd-user adapters: unreachable; reachable without the unit;
    reachable without the unit and failing on every mutation. *)
Definition systemd_off : Systemd := systemd false false false unit_missing.
Definition systemd_no_unit : Systemd := systemd true false false unit_missing.

End Fixture.

(* ================================================================== *)
(** * Further specification-side definitions and hosts *)
(* ================================================================== *)

(** What a query of the PM2 adapter may leave in the history: a spawn
    of [pm2 --version], [pm2 jlist] or [pm2 describe <svc>]. *)
Definition query_event (svc : string) (ev : Event) : Prop :=
  ev = pm2 ["--version"] \/ ev = pm2 ["jlist"] \/ ev = pm2 ["describe"; svc].

(** An entry of a process list that [find] steps over: it can be read
    and does not carry the name of the service. *)
Definition skipped (svc : string) (p : JsVal) : bool :=
  negb (nullish p) && negb (named svc p).

(** The first value that is a non-empty string. *)
Fixpoint first_nonempty (candidates : list (option string)) : option string :=
  match candidates with
  | [] => None
  | Some s :: rest => if String.eqb s "" then first_nonempty rest else Some s
  | None :: rest => first_nonempty rest
  end.

(** The environment variables [resolveProxyUrl] consults, in order. *)
Definition proxy_variables : list string :=
  ["HTTPS_PROXY"; "HTTP_PROXY"; "https_proxy"; "http_proxy"].

Module MoreFixtures.
Import Fixture.

(** [pm2 jlist] with the service as [installPm2Service] registers it
    for the install of the specification. *)
Definition registered_text : string :=
  "[{" ++ q "name" ++ ":" ++ q "svc" ++ "," ++ q "pm2_env" ++ ":{"
  ++ q "exec_interpreter" ++ ":" ++ q "node" ++ ","
  ++ q "pm_exec_path" ++ ":" ++ q "/app/gw.js" ++ ","
  ++ q "args" ++ ":[" ++ q "--port" ++ "," ++ q "3000" ++ "],"
  ++ q "cwd" ++ ":" ++ q "/app" ++ "}}]".

Definition registered_env : list (string * JsVal) :=
  [("exec_interpreter", JStr "node"); ("pm_exec_path", JStr "/app/gw.js");
   ("args", JArr [JStr "--port"; JStr "3000"]); ("cwd", JStr "/app")].

Definition registered_entry : list (string * JsVal) :=
  [("name", JStr "svc"); ("pm2_env", JObj registered_env)].

(** The same entry with the arguments as one string. *)
Definition string_args_text : string :=
  "[{" ++ q "name" ++ ":" ++ q "svc" ++ "," ++ q "pm2_env" ++ ":{"
  ++ q "exec_interpreter" ++ ":" ++ q "node" ++ ","
  ++ q "pm_exec_path" ++ ":" ++ q "/app/gw.js" ++ ","
  ++ q "args" ++ ":" ++ q "-v" ++ "}}]".

Definition string_args_env : list (string * JsVal) :=
  [("exec_interpreter", JStr "node"); ("pm_exec_path", JStr "/app/gw.js");
   ("args", JStr "-v")].

(** Process lists: one that starts with [null]; one with another
    process in front of the service and a second instance of it behind;
    one with the service alone. *)
Definition entry_text (name status : string) : string :=
  "{" ++ q "name" ++ ":" ++ q name ++ "," ++ q "pm2_env" ++ ":{"
  ++ q "status" ++ ":" ++ q status ++ "}}".

Definition entry (name status : string) : JsVal :=
  JObj [("name", JStr name); ("pm2_env", JObj [("status", JStr status)])].

Definition null_first_text : string :=
  "[null," ++ entry_text "svc" "online" ++ "]".

Definition cluster_text : string :=
  "[" ++ entry_text "web" "errored" ++ "," ++ entry_text "svc" "online" ++ ","
  ++ entry_text "svc" "stopped" ++ "]".

Definition single_text : string :=
  "[" ++ entry_text "svc" "online" ++ "]".

Definition json (text : string) : option JsVal :=
  if String.eqb text registered_text then Some (JArr [JObj registered_entry])
  else if String.eqb text string_args_text
       then Some (JArr [JObj [("name", JStr "svc"); ("pm2_env", JObj string_args_env)]])
  else if String.eqb text null_first_text
       then Some (JArr [JNull; entry "svc" "online"])
  else if String.eqb text cluster_text
       then Some (JArr [entry "web" "errored"; entry "svc" "online"; entry "svc" "stopped"])
  else if String.eqb text single_text then Some (JArr [entry "svc" "online"])
  else None.

(** A scripted host that reads JSON with [json]. *)
Definition host (s : Script) : Host := {|
  execFile_outcome := fun _ file args =>
    if String.eqb file "pm2" then scripted s args else enoent;
  JSON_parse := json;
  resolveGatewaySystemdServiceName := fun profile =>
    match profile with
    | Some p => "svc-" ++ p
    | None => "svc"
    end;
  Color := unit;
  theme_muted := tt;
  theme_command := tt;
  isRich := false;
  colorize := fun _ _ text => text
|}.

(** PM2 installed, every subcommand succeeds, [jlist] prints [text]. *)
Definition listing (text : string) : Script :=
  mkScript (exits 0 "5.3.0" "") (exits 0 "" "") (exits 0 text "")
           (exits 0 "" "") (exits 0 "" "") (exits 0 "" "") (exits 0 "" "") (exits 0 "" "").

Definition registered : Host := host (listing registered_text).
Definition string_args : Host := host (listing string_args_text).
Definition null_first : Host := host (listing null_first_text).

(** systemd-user adapters: reachable with the unit enabled and active,
    and one whose every function but the probe throws. *)
Definition systemd_enabled : Systemd := systemd true true false unit_active.

Definition systemd_unreachable_throwing : Systemd := {|
  installSystemdService := fun _ => throw (Error "systemctl: no bus");
  isSystemdServiceEnabled := fun _ => throw (Error "systemctl: no bus");
  isSystemdUserServiceAvailable := ret false;
  readSystemdServiceExecStart := fun _ => throw (Error "systemctl: no bus");
  readSystemdServiceRuntime := fun _ => throw (Error "systemctl: no bus");
  restartSystemdService := fun _ => throw (Error "systemctl: no bus");
  stopSystemdService := fun _ => throw (Error "systemctl: no bus");
  uninstallSystemdService := fun _ => throw (Error "systemctl: no bus")
|}.

(** An install with the interpreter only. *)
Definition bare_install : GatewayServiceInstallArgs :=
  mkInstallArgs empty_env ["node"] None None None.

(** A process environment with an empty [HTTPS_PROXY] and a set
    [http_proxy]. *)
Definition proxy_env : Env := fun name =>
  if String.eqb name "HTTPS_PROXY" then Some ""
  else if String.eqb name "http_proxy" then Some "http://10.0.0.1:3128"
  else None.

End MoreFixtures.

(* ================================================================== *)
(** * Running the PM2 adapter *)
(* ================================================================== *)

Lemma bind_ok {A B} (m : M A) (k : A -> M B) w a w' :
  m w = (Ok a, w') -> bind m k w = k a w'.
Proof. intros E. unfold bind. rewrite E. reflexivity. Qed.



Section Pm2Runs.
Context `{Host}.

(** [execPm2] never throws: a rejection is turned into an exit code. *)
Lemma execPm2_run args w :
  execPm2 args w = (Ok (pm2_answer w args), (w ++ [EvExec "pm2" args])%list).
Proof.
  unfold pm2_answer, execPm2, try_catch, bind, execFileAsync, ret.
  destruct (execFile_outcome w "pm2" args) as [[out err] | e]; reflexivity.
Qed.

Lemma isPm2Available_run w :
  isPm2Available w =
  (Ok (code (pm2_answer w [Some "--version"]) =? 0), (w ++ [pm2 ["--version"]])%list).
Proof.
  unfold isPm2Available. rewrite (bind_ok _ _ _ _ _ (execPm2_run _ _)). reflexivity.
Qed.

Lemma assertPm2Available_run w :
  assertPm2Available w =
  (if code (pm2_answer w [Some "--version"]) =? 0 then Ok tt else Throw (Error not_available),
   (w ++ [pm2 ["--version"]])%list).
Proof.
  unfold assertPm2Available. rewrite (bind_ok _ _ _ _ _ (isPm2Available_run _)).
  destruct (code _ =? 0); reflexivity.
Qed.

Lemma assertPm2Available_ok w :
  code (pm2_answer w [Some "--version"]) = 0 ->
  assertPm2Available w = (Ok tt, (w ++ [pm2 ["--version"]])%list).
Proof. intros Hv. rewrite assertPm2Available_run, Hv. reflexivity. Qed.

Lemma isPm2Available_answers pa :
  pm2_availability pa -> answers isPm2Available pa.
Proof.
  intros Hpa w. eexists. rewrite isPm2Available_run, Hpa. reflexivity.
Qed.

End Pm2Runs.

Ltac norm_world :=
  unfold pm2; cbn [map app]; rewrite <- ?app_assoc; cbn [map app].

Ltac run_pm2 :=
  repeat first
    [ rewrite (bind_ok _ _ _ _ _ (execPm2_run _ _))
    | rewrite (bind_ok _ _ _ _ _ (isPm2Available_run _))
    | rewrite (bind_ok _ _ _ _ _ (assertPm2Available_run _)) ].

(* ================================================================== *)
(** * Trimming *)
(* ================================================================== *)

Lemma append_nil_r (s : string) : s ++ "" = s.
Proof. induction s as [|c s IH]; simpl; [reflexivity | now rewrite IH]. Qed.

Lemma append_assoc (a b c : string) : (a ++ b) ++ c = a ++ (b ++ c).
Proof. induction a as [|x a IH]; simpl; [reflexivity | now rewrite IH]. Qed.

Lemma eqb_append_empty (a b : string) :
  String.eqb b "" = false -> String.eqb (a ++ b) "" = false.
Proof. destruct a; simpl; [trivial | reflexivity]. Qed.

Lemma trimEnd_append (a b : string) :
  trimEnd (a ++ b) = if String.eqb (trimEnd b) "" then trimEnd a else a ++ trimEnd b.
Proof.
  induction a as [|c a IH]; simpl.
  - destruct (String.eqb (trimEnd b) "") eqn:E; [|reflexivity].
    now apply String.eqb_eq in E.
  - rewrite IH. destruct (String.eqb (trimEnd b) "") eqn:E; [reflexivity|].
    rewrite (eqb_append_empty a _ E), andb_false_r. reflexivity.
Qed.

Lemma trimStart_split (s : string) : exists pre, s = pre ++ trimStart s.
Proof.
  induction s as [|c s [pre IH]]; simpl.
  - now exists "".
  - destruct (is_ws c).
    + exists (String c pre). simpl. now rewrite <- IH.
    + now exists "".
Qed.

(** Whatever precedes it, a trimmed text ends with the trimmed form of
    its last part. *)
Lemma trimEnd_contains_trim (p d : string) :
  exists pre, trimEnd (p ++ d) = pre ++ trim d.
Proof.
  destruct (trimStart_split d) as [ws Hd]. unfold trim.
  assert (E0 : trimEnd (p ++ d) = trimEnd ((p ++ ws) ++ trimStart d))
    by (rewrite append_assoc, <- Hd; reflexivity).
  rewrite E0, trimEnd_append.
  destruct (String.eqb (trimEnd (trimStart d)) "") eqn:E.
  - apply String.eqb_eq in E. rewrite E. exists (trimEnd (p ++ ws)).
    now rewrite append_nil_r.
  - now exists (p ++ ws).
Qed.

(* ================================================================== *)
(** * Installing through PM2 *)
(* ================================================================== *)

Section Pm2Install.
Context `{Host}.

Lemma installPm2Service_run a w :
  code (pm2_answer w [Some "--version"]) = 0 ->
  let svc := resolvePm2ServiceName (env a) in
  let start_cmd :=
    ([Some "start"; nth_error (programArguments a) 1; Some "--name"; Some svc;
      Some "--interpreter"; nth_error (programArguments a) 0; Some "--"]
       ++ map Some (skipn 2 (programArguments a)))%list in
  let w1 := (w ++ [pm2 ["--version"]] ++ [pm2 ["delete"; svc]])%list in
  let w2 := (w1 ++ [EvExec "pm2" start_cmd])%list in
  let w3 := (w2 ++ [pm2 ["save"]])%list in
  let start := pm2_answer w1 start_cmd in
  let save := pm2_answer w2 [Some "save"] in
  installPm2Service a w =
  if negb (code start =? 0)
  then (Throw (Error (trim ("pm2 start failed: " ++ str_or (stderr start) (stdout start)))), w2)
  else if negb (code save =? 0)
  then (Throw (Error (trim ("pm2 save failed: " ++ str_or (stderr save) (stdout save)))), w3)
  else (Ok tt,
        (w3 ++ [EvWrite (String "010" "")]
            ++ [EvWrite (formatLine "Installed PM2 service" svc ++ String "010" "")])%list).
Proof.
  intros Hv. cbv zeta. unfold installPm2Service.
  rewrite (bind_ok _ _ _ _ _ (assertPm2Available_ok w Hv)).
  run_pm2. norm_world.
  match goal with |- context [code ?r =? 0] => destruct (code r =? 0) end;
    cbn [negb]; [|reflexivity].
  run_pm2. norm_world.
  match goal with |- context [code ?r =? 0] => destruct (code r =? 0) end;
    cbn [negb]; [|reflexivity].
  unfold bind, stdout_write. norm_world. reflexivity.
Qed.

End Pm2Install.

(* ================================================================== *)
(** * Reading the runtime state from PM2 *)
(* ================================================================== *)

Section Pm2Runtime.
Context `{Host}.

Lemma readPm2ServiceRuntime_run e w :
  let w1 := (w ++ [pm2 ["--version"]])%list in
  let w2 := (w ++ [pm2 ["--version"]; pm2 ["jlist"]])%list in
  let res := pm2_answer w1 [Some "jlist"] in
  readPm2ServiceRuntime e w =
  if code (pm2_answer w [Some "--version"]) =? 0 then
    if negb (code res =? 0)
    then (Ok (unknown_because (Some (str_or (stderr res) (stdout res)))), w2)
    else match runtime_of_jlist (stdout res) (resolvePm2ServiceName e) with
         | Ok r => (Ok r, w2)
         | Throw _ => (Ok (unknown_because None), w2)
         end
  else (Ok (unknown_because (Some ("Error: " ++ not_available))), w1).
Proof.
  cbv zeta. unfold readPm2ServiceRuntime. rewrite assertPm2Available_run.
  destruct (code (pm2_answer w [Some "--version"]) =? 0); [|reflexivity].
  run_pm2. norm_world.
  match goal with |- context [code ?r =? 0] => destruct (code r =? 0) end;
    cbn [negb]; [|reflexivity].
  unfold try_catch, lift, ret.
  destruct (runtime_of_jlist _ _); reflexivity.
Qed.

(** On a list without [null] entries, [find] returns the entry with
    the name of the service, or [undefined]. *)
Lemma find_app_entry items svc :
  forallb (fun p => negb (nullish p)) items = true ->
  find_app (JArr items) svc =
  Ok (match entry_named svc items with Some p => p | None => JUndefined end).
Proof.
  unfold find_app, entry_named, js_find.
  induction items as [|p items IH]; intros Hn; [reflexivity|].
  cbn [forallb] in Hn. apply andb_prop in Hn as [Hp Hn].
  cbn [find_throwing List.find].
  destruct p; try discriminate Hp; cbn [get rbind strict_eq_str named];
    try (apply IH; assumption).
  destruct (strict_eq_str (assoc "name" props) svc); [reflexivity | now apply IH].
Qed.

(** Whenever a status is produced with [missingUnit: true], it is
    [stopped]. *)
Lemma runtime_of_jlist_missing text svc r :
  runtime_of_jlist text svc = Ok r -> missingUnit r = Some true -> status r = stopped.
Proof.
  unfold runtime_of_jlist.
  destruct (parse text) as [list|]; cbn [rbind]; [|discriminate].
  destruct (find_app list svc) as [app|]; cbn [rbind]; [|discriminate].
  destruct (negb (truthy app)).
  - intros [= <-]. reflexivity.
  - destruct (get app "pm2_env") as [pm2_env|]; cbn [rbind]; [|discriminate].
    destruct (get pm2_env "status") as [st|]; cbn [rbind]; [|discriminate].
    destruct (get app "pid") as [p|]; cbn [rbind]; [|discriminate].
    destruct (get pm2_env "exit_code") as [c|]; cbn [rbind]; [|discriminate].
    intros [= <-]. discriminate.
Qed.

End Pm2Runtime.

Section Pm2Claims.
Context `{Host}.

(** C7.  For [programArguments = [interpreter, script, ...args]] and PM2
    installed, [installPm2Service] spawns, after the availability probe,
    [pm2 delete <svc>], then exactly
    [pm2 start <script> --name <svc> --interpreter <interpreter> -- <args...>],
    then [pm2 save].  A nonzero exit of the start step throws an error
    whose message is the trimmed text "pm2 start failed: " followed by the
    captured stderr, or stdout when stderr is empty (so the message ends
    with that text, trimmed), and nothing is saved; a nonzero exit of the
    save step throws likewise although start succeeded; otherwise the
    install succeeds and reports the service on the output stream. *)
Theorem installPm2Service_protocol a interpreter script args w :
  programArguments a = interpreter :: script :: args ->
  code (pm2_answer w [Some "--version"]) = 0 ->
  let svc := resolvePm2ServiceName (env a) in
  let start_cmd :=
    (["start"; script; "--name"; svc; "--interpreter"; interpreter; "--"] ++ args)%list in
  let w1 := (w ++ [pm2 ["--version"]; pm2 ["delete"; svc]])%list in
  let w2 := (w1 ++ [pm2 start_cmd])%list in
  let w3 := (w2 ++ [pm2 ["save"]])%list in
  let start := pm2_answer w1 (map Some start_cmd) in
  let save := pm2_answer w2 [Some "save"] in
  let start_diag := str_or (stderr start) (stdout start) in
  let save_diag := str_or (stderr save) (stdout save) in
  (code start <> 0 ->
   installPm2Service a w = (Throw (Error (trim ("pm2 start failed: " ++ start_diag))), w2)
   /\ exists pre, trim ("pm2 start failed: " ++ start_diag) = pre ++ trim start_diag)
  /\ (code start = 0 -> code save <> 0 ->
      installPm2Service a w = (Throw (Error (trim ("pm2 save failed: " ++ save_diag))), w3)
      /\ exists pre, trim ("pm2 save failed: " ++ save_diag) = pre ++ trim save_diag)
  /\ (code start = 0 -> code save = 0 ->
      installPm2Service a w =
      (Ok tt, (w3 ++ [EvWrite (String "010" "");
                      EvWrite (formatLine "Installed PM2 service" svc ++ String "010" "")])%list)).
Proof.
  intros Hp Hv. cbv zeta.
  pose proof (installPm2Service_run a w Hv) as R. cbv zeta in R.
  rewrite Hp in R. cbn [nth_error skipn] in R. revert R. norm_world. intros R.
  rewrite R. clear R.
  match goal with |- context [code ?r =? 0] => destruct (Z.eqb_spec (code r) 0) as [Es|Es] end;
    cbn [negb].
  - split; [intros C; contradiction|]. split.
    + intros _ Hs.
      match goal with |- context [code ?r =? 0] =>
        destruct (Z.eqb_spec (code r) 0) as [Ev|Ev] end; [contradiction|].
      cbn [negb]. split; [reflexivity|].
      apply (trimEnd_contains_trim "pm2 save failed: ").
    + intros _ Hs.
      match goal with |- context [code ?r =? 0] =>
        destruct (Z.eqb_spec (code r) 0) as [Ev|Ev] end; [|contradiction].
      reflexivity.
  - split; [|split; intros C; contradiction].
    intros _. split; [reflexivity|].
    apply (trimEnd_contains_trim "pm2 start failed: ").
Qed.

(** C3.  When PM2 is installed and [pm2 jlist] exits with 0 and prints
    a process list without [null] entries, [readPm2ServiceRuntime] looks
    the service up by name: for the entry with that name, whose [pm2_env]
    is an object, the status is [running] when [pm2_env.status] is
    "online" and [stopped] for anything else, and [state], [pid] and
    [lastExitStatus] are [pm2_env.status], [pid] and [pm2_env.exit_code]
    of the entry; with no entry of that name the result is
    [{status: "stopped", missingUnit: true}].  In every case whatsoever a
    result with [missingUnit = true] has status [stopped]. *)
Theorem readPm2ServiceRuntime_status_mapping e w :
  (forall items,
     code (pm2_answer w [Some "--version"]) = 0 ->
     let res := pm2_answer (w ++ [pm2 ["--version"]])%list [Some "jlist"] in
     code res = 0 ->
     JSON_parse (stdout res) = Some (JArr items) ->
     forallb (fun p => negb (nullish p)) items = true ->
     let svc := resolvePm2ServiceName e in
     let w2 := (w ++ [pm2 ["--version"]; pm2 ["jlist"]])%list in
     (forall props envp,
        entry_named svc items = Some (JObj props) ->
        assoc "pm2_env" props = JObj envp ->
        readPm2ServiceRuntime e w =
        (Ok (mkRuntime
               (if strict_eq_str (assoc "status" envp) "online" then running else stopped)
               (assoc "status" envp) (assoc "pid" props) (assoc "exit_code" envp)
               None None), w2))
     /\ (entry_named svc items = None ->
         readPm2ServiceRuntime e w =
         (Ok (mkRuntime stopped JUndefined JUndefined JUndefined (Some true) None), w2)))
  /\ (forall r w',
        readPm2ServiceRuntime e w = (Ok r, w') ->
        missingUnit r = Some true -> status r = stopped).
Proof.
  split.
  - intros items Hv res Hj Hparse Hitems svc w2.
    pose proof (readPm2ServiceRuntime_run e w) as R. cbv zeta in R.
    rewrite Hv in R. fold res in R. rewrite Hj in R. cbn [Z.eqb negb] in R.
    rewrite R. clear R. fold svc.
    unfold runtime_of_jlist, parse. rewrite Hparse. cbn [rbind].
    rewrite (find_app_entry items svc Hitems). cbn [rbind].
    split.
    + intros props envp Hfound Henv. rewrite Hfound. cbn [truthy negb get rbind].
      rewrite Henv. reflexivity.
    + intros Hnone. rewrite Hnone. reflexivity.
  - intros r w' R Hm.
    pose proof (readPm2ServiceRuntime_run e w) as R'. cbv zeta in R'.
    rewrite R in R'.
    destruct (code (pm2_answer w [Some "--version"]) =? 0).
    + destruct (negb _).
      * injection R' as -> _. discriminate Hm.
      * destruct (runtime_of_jlist _ _) as [r0|] eqn:E.
        -- injection R' as -> _. exact (runtime_of_jlist_missing _ _ _ E Hm).
        -- injection R' as -> _. discriminate Hm.
    + injection R' as -> _. discriminate Hm.
Qed.

(** The common shape of [stopPm2Service] and [restartPm2Service]. *)
Lemma stop_restart_run verb done (e : option Env) w :
  code (pm2_answer w [Some "--version"]) = 0 ->
  let svc := resolvePm2ServiceName (match e with Some e' => e' | None => empty_env end) in
  (assertPm2Available ;;
   execPm2 [Some verb; Some svc] ;;
   stdout_write (formatLine done svc ++ String "010" "")) w =
  (Ok tt, (w ++ [pm2 ["--version"]; pm2 [verb; svc];
                 EvWrite (formatLine done svc ++ String "010" "")])%list).
Proof.
  intros Hv. cbv zeta.
  rewrite (bind_ok _ _ _ _ _ (assertPm2Available_ok w Hv)).
  run_pm2. unfold stdout_write. norm_world. reflexivity.
Qed.

(** Whatever [pm2 stop] and [pm2 restart] exit with, the two
    operations complete and report success. *)
Lemma stopPm2Service_run e w :
  code (pm2_answer w [Some "--version"]) = 0 ->
  fst (stopPm2Service e w) = Ok tt /\ fst (restartPm2Service e w) = Ok tt.
Proof.
  intros Hv. unfold stopPm2Service, restartPm2Service.
  rewrite !(stop_restart_run _ _ e w Hv). split; reflexivity.
Qed.

End Pm2Claims.

(* ================================================================== *)
(** * The resolver on linux *)
(* ================================================================== *)

(** Runs the computation at the head of the goal with what it is known
    to answer. *)
Ltac probe Hm :=
  match goal with
  | |- context [bind ?m ?k ?w] =>
      let w' := fresh "w" in
      let E := fresh "E" in
      destruct (Hm w) as [w' E]; rewrite (bind_ok m k w _ w' E); clear E
  end.

Section LinuxClaims.
Context `{Host} `{Systemd}.

Lemma probed_trans args w w1 w2 :
  probed args w w1 -> probed args w1 w2 -> probed args w w2.
Proof.
  induction 1 as [|w w' w1 Hs _ IH]; intros H12; [exact H12|].
  exact (probed_step args _ _ _ Hs (IH H12)).
Qed.

Lemma probed_one args w w1 : probe_step args w w1 -> probed args w w1.
Proof. intros Hs. exact (probed_step args _ _ _ Hs (probed_refl args w1)). Qed.

(** The two probes of systemd-user, the second only after a true
    answer of the first. *)
Lemma systemd_probes_run (sa se : bool) args w :
  answers isSystemdUserServiceAvailable sa ->
  answers (isSystemdServiceEnabled args) se ->
  exists w1,
    probed args w w1
    /\ and_then isSystemdUserServiceAvailable (isSystemdServiceEnabled args) w =
       (Ok (sa && se), w1).
Proof.
  intros Hsa Hse. unfold and_then.
  destruct (Hsa w) as [w1 E1]. rewrite (bind_ok _ _ _ _ _ E1).
  pose proof (probed_one args _ _ (probe_systemd_available args _ _ _ E1)) as P1.
  destruct sa; cbn [andb].
  - destruct (Hse w1) as [w2 E2]. exists w2. split; [|exact E2].
    exact (probed_trans _ _ _ _ P1
             (probed_one args _ _ (probe_systemd_enabled args _ _ _ E2))).
  - exists w1. split; [exact P1 | reflexivity].
Qed.

Lemma pm2_probes_run (pa pe : bool) args w :
  answers isPm2Available pa ->
  answers (isPm2ServiceEnabled args) pe ->
  exists w1,
    probed args w w1
    /\ and_then isPm2Available (isPm2ServiceEnabled args) w = (Ok (pa && pe), w1).
Proof.
  intros Hpa Hpe. unfold and_then.
  destruct (Hpa w) as [w1 E1]. rewrite (bind_ok _ _ _ _ _ E1).
  pose proof (probed_one args _ _ (probe_pm2_available args _ _ _ E1)) as P1.
  destruct pa; cbn [andb].
  - destruct (Hpe w1) as [w2 E2]. exists w2. split; [|exact E2].
    exact (probed_trans _ _ _ _ P1
             (probed_one args _ _ (probe_pm2_enabled args _ _ _ E2))).
  - exists w1. split; [exact P1 | reflexivity].
Qed.

(** What [stop] and [restart] do on linux, for every configuration of
    the two backends: each does nothing but probe and then runs one
    operation of one backend.  [stop] follows the precedence of the
    specification (systemd-user when available and enabled, else PM2 when
    available and enabled, else systemd-user, forced); [restart] takes
    the same first two steps, and when no backend reports the service
    enabled it restarts through systemd-user if that is available, else
    through PM2 if that is available, and through systemd-user when
    neither is. *)
Lemma linux_stop_restart_precedence :
  follows_precedence spec_precedence linux_stop stopSystemdService stopPm2Service
  /\ follows_precedence restart_precedence linux_restart
       restartSystemdService restartPm2Service.
Proof.
  split; intros sa se pa pe args Hsa Hse Hpa Hpe w.
  - unfold linux_stop, spec_precedence.
    destruct (systemd_probes_run sa se args w Hsa Hse) as (w1 & P1 & E1).
    rewrite (bind_ok _ _ _ _ _ E1).
    destruct (sa && se); [now exists w1|].
    destruct (pm2_probes_run pa pe args w1 Hpa Hpe) as (w2 & P2 & E2).
    rewrite (bind_ok _ _ _ _ _ E2).
    pose proof (probed_trans _ _ _ _ P1 P2) as P.
    destruct (pa && pe); now exists w2.
  - unfold linux_restart, restart_precedence.
    destruct (systemd_probes_run sa se args w Hsa Hse) as (w1 & P1 & E1).
    rewrite (bind_ok _ _ _ _ _ E1).
    destruct (sa && se); [now exists w1|].
    destruct (pm2_probes_run pa pe args w1 Hpa Hpe) as (w2 & P2 & E2).
    rewrite (bind_ok _ _ _ _ _ E2).
    pose proof (probed_trans _ _ _ _ P1 P2) as P.
    destruct (pa && pe); [now exists w2|].
    destruct (Hsa w2) as [w3 E3]. rewrite (bind_ok _ _ _ _ _ E3).
    pose proof (probed_trans _ _ _ _ P
                  (probed_one args _ _ (probe_systemd_available args _ _ _ E3))) as P3.
    destruct sa; [now exists w3|].
    destruct (Hpa w3) as [w4 E4]. rewrite (bind_ok _ _ _ _ _ E4).
    pose proof (probed_trans _ _ _ _ P3
                  (probed_one args _ _ (probe_pm2_available args _ _ _ E4))) as P4.
    destruct pa; now exists w4.
Qed.


End LinuxClaims.

Section ResolverClaims.
Context `{Host} `{Launchd} `{Systemd} `{Schtasks}.



(** C4.  For every platform, [resolveGatewayService] returns the set of
    operations of that platform under its fixed label (darwin:
    "LaunchAgent", linux: "Systemd/PM2", win32: "Scheduled Task"), and on
    every other platform it throws, at construction, an error that names
    the platform. *)
Theorem resolveGatewayService_by_platform (platform : string) :
  match resolveGatewayService platform with
  | Ok service => fixed_label platform = Some (label service)
  | Throw e =>
      fixed_label platform = None
      /\ e = Error ("Gateway service install not supported on " ++ platform)
  end
  /\ resolveGatewayService "darwin" =
     Ok (mkGatewayService "LaunchAgent" "loaded" "not loaded"
           installLaunchAgent uninstallLaunchAgent stopLaunchAgent restartLaunchAgent
           isLaunchAgentLoaded readLaunchAgentProgramArguments readLaunchAgentRuntime)
  /\ resolveGatewayService "linux" =
     Ok (mkGatewayService "Systemd/PM2" "active" "inactive"
           linux_install linux_uninstall linux_stop linux_restart
           linux_isLoaded linux_readCommand linux_readRuntime)
  /\ resolveGatewayService "win32" =
     Ok (mkGatewayService "Scheduled Task" "registered" "missing"
           installScheduledTask uninstallScheduledTask stopScheduledTask
           restartScheduledTask isScheduledTaskInstalled readScheduledTaskCommand
           readScheduledTaskRuntime)
  /\ (platform <> "darwin" -> platform <> "linux" -> platform <> "win32" ->
      resolveGatewayService platform =
      Throw (Error ("Gateway service install not supported on " ++ platform))).
Proof.
  repeat split; try reflexivity.
  - unfold resolveGatewayService, fixed_label.
    destruct (String.eqb platform "darwin"); [reflexivity|].
    destruct (String.eqb platform "linux"); [reflexivity|].
    destruct (String.eqb platform "win32"); [reflexivity|].
    split; reflexivity.
  - intros Hd Hl Hw. unfold resolveGatewayService.
    apply String.eqb_neq in Hd, Hl, Hw. rewrite Hd, Hl, Hw. reflexivity.
Qed.


End ResolverClaims.

(* ================================================================== *)
(** * The proxy-fetch registry *)
(* ================================================================== *)

Module ProxyFetchFacts.
Import ProxyFetch.

Section Lifecycle.
Context `{Undici}.

Lemma consistent_initial f0 : consistent f0 (initial f0).
Proof. unfold consistent, initial; cbn. auto. Qed.

Lemma consistent_uninstall f0 s :
  consistent f0 s -> uninstallProxyFetch s = mkState
    (if proxyInstalled s then None else originalFetch s) false None f0.
Proof.
  unfold consistent, uninstallProxyFetch. destruct s as [o i u g]; cbn.
  destruct i.
  - intros [-> _]. reflexivity.
  - intros (-> & -> & _). reflexivity.
Qed.

Lemma consistent_install_fresh f0 v s :
  consistent f0 s -> proxyInstalled s = false ->
  consistent f0 (snd (install_fresh v s)).
Proof.
  unfold consistent, install_fresh. destruct s as [o i u g]; cbn.
  intros Hc ->. destruct Hc as (-> & -> & _).
  destruct (ProxyAgent v) as [agent|e] eqn:E; cbn.
  - split; [reflexivity|]. exists v, agent. auto.
  - auto.
Qed.

Lemma consistent_step f0 s c : consistent f0 s -> consistent f0 (step s c).
Proof.
  intros Hc. destruct c as [v|]; cbn [step].
  - unfold installProxyFetch. destruct (proxyInstalled s) eqn:Ei.
    + destruct (same_url (installedProxyUrl s) v); [exact Hc|].
      apply consistent_install_fresh.
      * rewrite (consistent_uninstall f0 s Hc). unfold consistent; cbn. rewrite Ei. auto.
      * rewrite (consistent_uninstall f0 s Hc). reflexivity.
    + now apply consistent_install_fresh.
  - rewrite (consistent_uninstall f0 s Hc). unfold consistent; cbn.
    unfold consistent in Hc. destruct (proxyInstalled s); [auto|].
    destruct Hc as (_ & _ & Ho). auto.
Qed.

Lemma consistent_run f0 calls : forall s, consistent f0 s -> consistent f0 (run calls s).
Proof.
  unfold run. induction calls as [|c calls IH]; intros s Hc; cbn [fold_left].
  - exact Hc.
  - apply IH, consistent_step, Hc.
Qed.

Lemma reachable_consistent f0 calls : consistent f0 (run calls (initial f0)).
Proof. apply consistent_run, consistent_initial. Qed.

(** A call during which no construction of an agent throws leaves
    nothing behind in [originalFetch]. *)
Lemma in_step_step s c :
  call_builds c -> in_step s -> in_step (step s c).
Proof.
  intros Hagent Hs. destruct c as [v|]; cbn [step].
  - destruct Hagent as [agent Ea].
    unfold installProxyFetch, install_fresh. rewrite Ea.
    destruct (proxyInstalled s) eqn:Ei.
    + destruct (same_url (installedProxyUrl s) v); [exact Hs|].
      cbn. unfold in_step; cbn. repeat split; intros; congruence.
    + cbn. unfold in_step; cbn. repeat split; intros; congruence.
  - unfold uninstallProxyFetch. destruct (proxyInstalled s) eqn:Ei.
    + destruct (originalFetch s); [|exact Hs].
      unfold in_step; cbn. repeat split; intros; congruence.
    + exact Hs.
Qed.

Lemma in_step_run calls :
  Forall call_builds calls ->
  forall s, in_step s -> in_step (run calls s).
Proof.
  unfold run. induction 1 as [|c calls Hc _ IH]; intros s Hs; cbn [fold_left];
    [exact Hs|].
  apply IH, in_step_step; assumption.
Qed.

(** C9.  Installing the URL that is already installed changes nothing:
    neither the global fetch nor the recorded state.  In a state reached
    from the initial one with [u] installed, installing another URL [v]
    first tears the installation of [u] down (back to the initial state)
    and installs [v] from there, over the fetch of the runtime.  And
    [uninstallProxyFetch] restores that fetch and clears the recorded
    URL: afterwards [getInstalledProxyUrl] returns [undefined]. *)
Theorem proxy_fetch_lifecycle :
  (forall s u,
     proxyInstalled s = true -> installedProxyUrl s = Some u ->
     installProxyFetch u s = (Ok tt, s))
  /\ (forall f0 calls u v,
        let s := run calls (initial f0) in
        proxyInstalled s = true -> installedProxyUrl s = Some u -> v <> u ->
        uninstallProxyFetch s = initial f0
        /\ installProxyFetch v s = installProxyFetch v (uninstallProxyFetch s)
        /\ forall agent,
             ProxyAgent v = Ok agent ->
             installProxyFetch v s =
             (Ok tt, mkState (Some f0) true (Some v) (wrapped_proxyFetch agent)))
  /\ (forall f0 calls,
        let s := uninstallProxyFetch (run calls (initial f0)) in
        globalThis_fetch s = f0
        /\ getInstalledProxyUrl s = None
        /\ isProxyFetchInstalled s = false).
Proof.
  split; [|split].
  - intros s u Hi Hu. unfold installProxyFetch. rewrite Hi, Hu. cbn [same_url].
    now rewrite String.eqb_refl.
  - intros f0 calls u v s Hi Hu Hne.
    pose proof (reachable_consistent f0 calls) as Hc. fold s in Hc.
    pose proof (consistent_uninstall f0 s Hc) as Eu. rewrite Hi in Eu.
    assert (Es : same_url (installedProxyUrl s) v = false).
    { rewrite Hu. cbn. apply String.eqb_neq. congruence. }
    assert (Ei : installProxyFetch v s = installProxyFetch v (uninstallProxyFetch s)).
    { unfold installProxyFetch at 1. rewrite Hi, Es, Eu. reflexivity. }
    split; [exact Eu|]. split; [exact Ei|].
    intros agent Ea. rewrite Ei, Eu. unfold installProxyFetch, install_fresh. cbn.
    rewrite Ea. reflexivity.
  - intros f0 calls s.
    pose proof (reachable_consistent f0 calls) as Hc.
    unfold s. rewrite (consistent_uninstall f0 _ Hc). cbn. auto.
Qed.

(** C10, as amended.  Starting from the initial state and after any
    sequence of [installProxyFetch] and [uninstallProxyFetch] calls,
    [proxyInstalled] is true if and only if [installedProxyUrl] is
    defined, and then [originalFetch] is saved; consequently
    [isProxyFetchInstalled()] returns true exactly when
    [getInstalledProxyUrl()] returns a URL.  When moreover no call of
    the sequence had the construction of its [ProxyAgent] throw,
    [originalFetch] is saved only then, so that the three variables are
    set and cleared together. *)
Theorem proxy_state_invariant (f0 : Fetch) (calls : list Call) :
  let s := run calls (initial f0) in
  (proxyInstalled s = true <-> installedProxyUrl s <> None)
  /\ (proxyInstalled s = true -> originalFetch s <> None)
  /\ (isProxyFetchInstalled s = true <-> exists u, getInstalledProxyUrl s = Some u)
  /\ (Forall call_builds calls -> in_step s).
Proof.
  intros s. pose proof (reachable_consistent f0 calls) as Hc. fold s in Hc.
  unfold consistent, isProxyFetchInstalled, getInstalledProxyUrl in *.
  split; [split|split; [|split; [split|]]].
  - intros Hi. rewrite Hi in Hc. destruct Hc as (_ & u & a & -> & _). discriminate.
  - intros Hu. destruct (proxyInstalled s); [reflexivity|].
    destruct Hc as (Hn & _). contradiction.
  - intros Hi. rewrite Hi in Hc. destruct Hc as (-> & _). discriminate.
  - intros Hi. rewrite Hi in Hc. destruct Hc as (_ & u & a & Hu & _). now exists u.
  - intros [u Hu]. destruct (proxyInstalled s); [reflexivity|].
    destruct Hc as (Hn & _). congruence.
  - intros Hagent. apply in_step_run; [exact Hagent|].
    unfold in_step, initial; cbn. repeat split; intros; congruence.
Qed.

End Lifecycle.
End ProxyFetchFacts.

(* ================================================================== *)
(** * The statements on concrete hosts *)
(* ================================================================== *)

Module Scenarios.
Import Fixture.

Lemma systemd_probe_answers available enabled broken rt :
  answers (@isSystemdUserServiceAvailable (systemd available enabled broken rt)) available.
Proof. intros w. eexists. reflexivity. Qed.

Lemma systemd_enabled_answers available enabled broken rt args :
  answers (@isSystemdServiceEnabled (systemd available enabled broken rt) args) enabled.
Proof. intros w. eexists. reflexivity. Qed.


Lemma pm2_only_available : answers (@isPm2Available pm2_only) true.
Proof. intros w. eexists. reflexivity. Qed.

Lemma pm2_only_not_enabled args : answers (@isPm2ServiceEnabled pm2_only args) false.
Proof. intros w. destruct args; eexists; lazy; reflexivity. Qed.


(** C1 fails on the code.  On a host where systemd-user is unreachable
    and PM2 is installed but does not know the service, no backend reports
    the service enabled.  [stop] then forces the operation of
    systemd-user, as the precedence says; [restart] looks at availability
    once more and ends in [pm2 restart]: its outcome is not that of the
    systemd-user restart on any history, so that it does not follow the
    precedence. *)
Theorem linux_restart_last_resort_diverges :
  answers (@isSystemdUserServiceAvailable systemd_off) false
  /\ answers (@isPm2Available pm2_only) true
  /\ answers (@isPm2ServiceEnabled pm2_only None) false
  /\ @linux_stop pm2_only systemd_off None [] =
     (Ok tt,
      [pm2 ["--version"]; pm2 ["--version"]; pm2 ["describe"; "svc"]; systemctl "stop"])
  /\ @linux_restart pm2_only systemd_off None [] =
     (Ok tt,
      [pm2 ["--version"]; pm2 ["--version"]; pm2 ["describe"; "svc"];
       pm2 ["--version"]; pm2 ["--version"]; pm2 ["restart"; "svc"];
       EvWrite ("Restarted PM2 service: svc" ++ String "010" "")])
  /\ (forall w1,
        @linux_restart pm2_only systemd_off None [] <>
        @restartSystemdService systemd_off None w1)
  /\ ~ @follows_precedence pm2_only systemd_off spec_precedence
         (@linux_restart pm2_only systemd_off)
         (@restartSystemdService systemd_off) (@restartPm2Service pm2_only).
Proof.
  assert (Hne : forall w1,
    @linux_restart pm2_only systemd_off None [] <>
    @restartSystemdService systemd_off None w1).
  { intros w1 E.
    change (@restartSystemdService systemd_off None w1)
      with (@Ok unit tt, (w1 ++ [systemctl "restart"])%list) in E.
    change (@linux_restart pm2_only systemd_off None [])
      with (@Ok unit tt,
            [pm2 ["--version"]; pm2 ["--version"]; pm2 ["describe"; "svc"];
             pm2 ["--version"]; pm2 ["--version"]; pm2 ["restart"; "svc"];
             EvWrite ("Restarted PM2 service: svc" ++ String "010" "")]) in E.
    injection E as E. apply (f_equal (@rev Event)) in E.
    rewrite rev_app_distr in E. cbn in E. discriminate E. }
  split; [apply systemd_probe_answers|].
  split; [apply pm2_only_available|].
  split; [apply pm2_only_not_enabled|].
  split; [reflexivity|]. split; [reflexivity|]. split; [exact Hne|].
  intros Hr.
  destruct (Hr false false true false None
              (systemd_probe_answers _ _ _ _) (systemd_enabled_answers _ _ _ _ _)
              pm2_only_available (pm2_only_not_enabled _) []) as [w1 [_ E]].
  exact (Hne w1 E).
Qed.

Lemma linux_stop_restart_precedence_witness :
  exists w1,
    @probed pm2_only systemd_off None [] w1
    /\ @linux_restart pm2_only systemd_off None [] = @restartPm2Service pm2_only None w1.
Proof.
  exact (proj2 (@linux_stop_restart_precedence pm2_only systemd_off)
           false false true false None
           (systemd_probe_answers _ _ _ _) (systemd_enabled_answers _ _ _ _ _)
           pm2_only_available (pm2_only_not_enabled _) []).
Defined.

(** systemd-user reports [missingUnit: true] and PM2 runs the service:
    the result is the status PM2 gives. *)
Example linux_readRuntime_falls_through :
  @linux_readRuntime pm2_online systemd_no_unit empty_env [] =
  (Ok (mkRuntime running (JStr "online") (JNum 123) (JNum 0) None None),
   [pm2 ["--version"]; pm2 ["--version"]; pm2 ["jlist"]]).
Proof. reflexivity. Qed.


Lemma readPm2ServiceRuntime_status_mapping_witness :
  @readPm2ServiceRuntime pm2_online empty_env [] =
  (Ok (mkRuntime running (JStr "online") (JNum 123) (JNum 0) None None),
   [pm2 ["--version"]; pm2 ["jlist"]]).
Proof.
  exact (proj1 (proj1 (@readPm2ServiceRuntime_status_mapping pm2_online empty_env [])
                  [JObj [("name", JStr "svc");
                         ("pm2_env", JObj [("status", JStr "online"); ("exit_code", JNum 0)]);
                         ("pid", JNum 123)]]
                  eq_refl eq_refl eq_refl eq_refl)
           [("name", JStr "svc");
            ("pm2_env", JObj [("status", JStr "online"); ("exit_code", JNum 0)]);
            ("pid", JNum 123)]
           [("status", JStr "online"); ("exit_code", JNum 0)]
           eq_refl eq_refl).
Defined.

Lemma resolveGatewayService_by_platform_witness :
  @resolveGatewayService pm2_online launchd systemd_off schtasks "freebsd" =
  Throw (Error "Gateway service install not supported on freebsd").
Proof.
  apply (proj2 (proj2 (proj2 (proj2
           (@resolveGatewayService_by_platform pm2_online launchd systemd_off schtasks
              "freebsd"))))); discriminate.
Defined.


(** C6 fails on the code: where [pm2 stop svc] and [pm2 restart svc]
    exit with 1, [stopPm2Service] and [restartPm2Service] complete
    normally and report that the service was stopped, or restarted. *)
Theorem pm2_stop_restart_ignore_exit_code :
  code (@pm2_answer pm2_only [pm2 ["--version"]] [Some "stop"; Some "svc"]) = 1
  /\ @stopPm2Service pm2_only None [] =
     (Ok tt, [pm2 ["--version"]; pm2 ["stop"; "svc"];
              EvWrite ("Stopped PM2 service: svc" ++ String "010" "")])
  /\ code (@pm2_answer pm2_only [pm2 ["--version"]] [Some "restart"; Some "svc"]) = 1
  /\ @restartPm2Service pm2_only None [] =
     (Ok tt, [pm2 ["--version"]; pm2 ["restart"; "svc"];
              EvWrite ("Restarted PM2 service: svc" ++ String "010" "")]).
Proof. repeat split. Qed.

Lemma installPm2Service_protocol_witness :
  @installPm2Service pm2_broken_start gw_install [] =
  (Throw (Error "pm2 start failed: [PM2][ERROR] Script not found: /app/gw.js"),
   [pm2 ["--version"]; pm2 ["delete"; "svc"];
    pm2 ["start"; "/app/gw.js"; "--name"; "svc"; "--interpreter"; "node"; "--";
         "--port"; "3000"]]).
Proof.
  apply (proj1 (@installPm2Service_protocol pm2_broken_start gw_install
                  "node" "/app/gw.js" ["--port"; "3000"] [] eq_refl eq_refl)).
  vm_compute. discriminate.
Defined.



Lemma proxy_fetch_lifecycle_witness :
  @ProxyFetch.installProxyFetch undici "http://127.0.0.1:7891"
    (@ProxyFetch.run undici [ProxyFetch.call_install "http://127.0.0.1:7890"]
       (@ProxyFetch.initial undici native_fetch)) =
  (Ok tt, @ProxyFetch.mkState undici (Some native_fetch) true (Some "http://127.0.0.1:7891")
            (Some "http://127.0.0.1:7891")).
Proof.
  apply (proj2 (proj2 (proj1 (proj2 (@ProxyFetchFacts.proxy_fetch_lifecycle undici))
           native_fetch [ProxyFetch.call_install "http://127.0.0.1:7890"]
           "http://127.0.0.1:7890" "http://127.0.0.1:7891"
           eq_refl eq_refl ltac:(discriminate)))).
  reflexivity.
Defined.

(** C10 as stated fails: an install on a URL the agent cannot be built
    on throws after the fetch of the runtime was saved and before the
    flag was set. *)
Lemma proxy_state_invariant_counterexample :
  let s := @ProxyFetch.run undici [ProxyFetch.call_install ""]
             (@ProxyFetch.initial undici native_fetch) in
  ProxyFetch.originalFetch s = Some native_fetch
  /\ ProxyFetch.proxyInstalled s = false
  /\ ProxyFetch.installedProxyUrl s = None
  /\ ~ ProxyFetch.in_step s.
Proof.
  cbv zeta. repeat split. intros [_ [_ Hs]].
  apply Hs; [discriminate | reflexivity].
Qed.

Lemma proxy_state_invariant_witness :
  ProxyFetch.in_step
    (@ProxyFetch.run undici
       [ProxyFetch.call_install "http://127.0.0.1:7890";
        ProxyFetch.call_install "http://127.0.0.1:7891";
        ProxyFetch.call_uninstall]
       (@ProxyFetch.initial undici native_fetch)).
Proof.
  apply (proj2 (proj2 (proj2 (@ProxyFetchFacts.proxy_state_invariant undici
           native_fetch
           [ProxyFetch.call_install "http://127.0.0.1:7890";
            ProxyFetch.call_install "http://127.0.0.1:7891";
            ProxyFetch.call_uninstall])))).
  repeat constructor; eexists; reflexivity.
Defined.

End Scenarios.

(* ================================================================== *)
(** * More on the PM2 adapter *)
(* ================================================================== *)

Lemma bind_throw {A B} (m : M A) (k : A -> M B) w e w' :
  m w = (Throw e, w') -> bind m k w = (Throw e, w').
Proof. intros E. unfold bind. rewrite E. reflexivity. Qed.

Section Pm2Extras.
Context `{Host}.

Lemma assertPm2Available_throws w :
  code (pm2_answer w [Some "--version"]) <> 0 ->
  assertPm2Available w = (Throw (Error not_available), (w ++ [pm2 ["--version"]])%list).
Proof.
  intros Hv. rewrite assertPm2Available_run.
  destruct (Z.eqb_spec (code (pm2_answer w [Some "--version"])) 0); [contradiction|reflexivity].
Qed.

(** X1.  Without PM2 (the probe [pm2 --version] does not exit with 0)
    each of the four mutating operations throws the error that asks to
    install pm2, after spawning the probe and nothing else: no delete,
    start, stop, restart or save is attempted and nothing is written. *)
Theorem pm2_operations_require_pm2 (a : GatewayServiceInstallArgs) (e : Env)
    (oe : option Env) (w : World) :
  code (pm2_answer w [Some "--version"]) <> 0 ->
  let failed := (@Throw unit (Error not_available), (w ++ [pm2 ["--version"]])%list) in
  installPm2Service a w = failed
  /\ uninstallPm2Service e w = failed
  /\ stopPm2Service oe w = failed
  /\ restartPm2Service oe w = failed.
Proof.
  intros Hv failed. unfold failed.
  unfold installPm2Service, uninstallPm2Service, stopPm2Service, restartPm2Service.
  repeat split; apply bind_throw, assertPm2Available_throws, Hv.
Qed.

(** X2.  [isPm2Available] never throws and spawns [pm2 --version]
    exactly once; it answers true exactly when the promise resolves, or
    is rejected with the numeric code 0.  A rejection without a numeric
    code (the binary cannot be spawned) is an answer of false. *)
Theorem isPm2Available_probe (w : World) :
  exists b,
    isPm2Available w = (Ok b, (w ++ [pm2 ["--version"]])%list)
    /\ (b = true <->
        (exists out, execFile_outcome w "pm2" [Some "--version"] = Ok out)
        \/ (exists ex, execFile_outcome w "pm2" [Some "--version"] = Throw ex
                       /\ ex_code ex = Some 0)).
Proof.
  eexists. split; [apply isPm2Available_run|].
  unfold pm2_answer, execPm2, try_catch, bind, execFileAsync, ret. cbn [fst].
  destruct (execFile_outcome w "pm2" [Some "--version"]) as [[out err]|ex] eqn:E; cbn [code fst].
  - split; [intros _; left; now eexists | reflexivity].
  - destruct (ex_code ex) as [n|] eqn:En.
    + split.
      * intros Hn. apply Z.eqb_eq in Hn. subst n. right. now exists ex.
      * intros [[out C]|[ex' [C C']]]; [discriminate C|].
        injection C as <-. rewrite En in C'. now injection C' as ->.
    + split; [discriminate|].
      intros [[out C]|[ex' [C C']]]; [discriminate C|].
      injection C as <-. rewrite En in C'. discriminate C'.
Qed.

(** X3.  [isPm2ServiceEnabled] never throws.  Without PM2 it answers
    false after the probe alone, [pm2 describe] is not spawned; with PM2
    it spawns [pm2 describe <svc>] and answers whether that exited
    with 0. *)
Theorem isPm2ServiceEnabled_describe (oe : option Env) (w : World) :
  let svc := resolvePm2ServiceName (match oe with Some e => e | None => empty_env end) in
  let w1 := (w ++ [pm2 ["--version"]])%list in
  (code (pm2_answer w [Some "--version"]) <> 0 ->
   isPm2ServiceEnabled oe w = (Ok false, w1))
  /\ (code (pm2_answer w [Some "--version"]) = 0 ->
      isPm2ServiceEnabled oe w =
      (Ok (code (pm2_answer w1 [Some "describe"; Some svc]) =? 0),
       (w ++ [pm2 ["--version"]; pm2 ["describe"; svc]])%list)).
Proof.
  cbv zeta. unfold isPm2ServiceEnabled. run_pm2. split; intros Hv.
  - destruct (Z.eqb_spec (code (pm2_answer w [Some "--version"])) 0); [contradiction|].
    reflexivity.
  - rewrite Hv. cbn [Z.eqb negb]. run_pm2. norm_world. reflexivity.
Qed.

End Pm2Extras.

Section Pm2CommandExtras.
Context `{Host}.

Lemma readPm2ServiceCommand_run e w :
  let res := pm2_answer w [Some "jlist"] in
  readPm2ServiceCommand e w =
  (Ok (if negb (code res =? 0) then None
       else match command_of_jlist (stdout res) (resolvePm2ServiceName e) with
            | Ok r => r
            | Throw _ => None
            end),
   (w ++ [pm2 ["jlist"]])%list).
Proof.
  cbv zeta. unfold readPm2ServiceCommand. run_pm2.
  destruct (code (pm2_answer w [Some "jlist"]) =? 0); cbn [negb]; [|reflexivity].
  unfold try_catch, lift, ret.
  destruct (command_of_jlist _ _); reflexivity.
Qed.

(** [find] goes through the list from the left and stops at the first
    entry with the name of the service. *)
Lemma find_app_scan svc pre target rest :
  forallb (skipped svc) pre = true -> named svc target = true ->
  find_app (JArr (pre ++ target :: rest)%list) svc = Ok target.
Proof.
  unfold find_app, js_find. intros Hpre Happ.
  induction pre as [|p pre IH]; cbn [app find_throwing].
  - destruct target; try discriminate Happ. cbn in Happ |- *. now rewrite Happ.
  - cbn [forallb] in Hpre. apply andb_prop in Hpre as [Hp Hpre].
    unfold skipped in Hp. apply andb_prop in Hp as [Hn Hm].
    destruct p; try discriminate Hn; cbn [get rbind strict_eq_str]; try (now apply IH).
    cbn [named] in Hm. apply negb_true_iff in Hm. rewrite Hm. now apply IH.
Qed.

Lemma find_app_null svc pre p rest :
  forallb (skipped svc) pre = true -> nullish p = true ->
  exists err, find_app (JArr (pre ++ p :: rest)%list) svc = Throw err.
Proof.
  unfold find_app, js_find. intros Hpre Hp.
  induction pre as [|p0 pre IH]; cbn [app find_throwing].
  - destruct p; try discriminate Hp; cbn; now eexists.
  - cbn [forallb] in Hpre. apply andb_prop in Hpre as [Hp0 Hpre].
    unfold skipped in Hp0. apply andb_prop in Hp0 as [Hn Hm].
    destruct p0; try discriminate Hn; cbn [get rbind strict_eq_str]; try (now apply IH).
    cbn [named] in Hm. apply negb_true_iff in Hm. rewrite Hm. now apply IH.
Qed.

Lemma command_of_jlist_found text svc items props envp :
  JSON_parse text = Some (JArr items) ->
  forallb (fun p => negb (nullish p)) items = true ->
  entry_named svc items = Some (JObj props) ->
  assoc "pm2_env" props = JObj envp ->
  command_of_jlist text svc =
  rbind (spread (if truthy (assoc "args" envp) then assoc "args" envp else JArr []))
        (fun rest =>
           Ok (Some (mkSnapshot
                       (assoc "exec_interpreter" envp :: assoc "pm_exec_path" envp :: rest)
                       (assoc "cwd" envp) (assoc "env" envp) JUndefined))).
Proof.
  intros Hparse Hitems Hfound Henv.
  unfold command_of_jlist, parse. rewrite Hparse. cbn [rbind].
  rewrite (find_app_entry items svc Hitems), Hfound. cbn [rbind truthy negb get].
  rewrite Henv. cbn [get rbind].
  destruct (spread _); reflexivity.
Qed.

(** X4.  [readPm2ServiceCommand] never throws and spawns [pm2 jlist]
    and nothing else (it does not probe for PM2 first).  When [jlist]
    exits with a nonzero code, when its output is not JSON, or when going
    through the parsed list throws, the result is [null]. *)
Theorem readPm2ServiceCommand_never_throws (e : Env) (w : World) :
  exists r,
    readPm2ServiceCommand e w = (Ok r, (w ++ [pm2 ["jlist"]])%list)
    /\ (let res := pm2_answer w [Some "jlist"] in
        code res <> 0
        \/ JSON_parse (stdout res) = None
        \/ (exists err, command_of_jlist (stdout res) (resolvePm2ServiceName e) = Throw err) ->
        r = None).
Proof.
  eexists. split; [apply readPm2ServiceCommand_run|]. cbv zeta.
  intros [C|[C|[err C]]].
  - destruct (Z.eqb_spec (code (pm2_answer w [Some "jlist"])) 0); [contradiction|reflexivity].
  - destruct (negb _); [reflexivity|].
    unfold command_of_jlist, parse. rewrite C. reflexivity.
  - destruct (negb _); [reflexivity|]. rewrite C. reflexivity.
Qed.

(** X5.  When [pm2 jlist] exits with 0 and prints a process list
    without [null] entries: with no entry of the name of the service,
    [readPm2ServiceCommand] returns [null]; for the entry of that name,
    whose [pm2_env] is an object, it returns
    [exec_interpreter], [pm_exec_path] and the elements of [args] as
    program arguments (none when [args] is absent or otherwise falsy),
    [cwd] as working directory and [env] as environment.  What
    [installPm2Service] passed to [pm2 start] as interpreter, script and
    arguments is read back in that order. *)
Theorem readPm2ServiceCommand_snapshot (e : Env) (w : World) (items : list JsVal) :
  let res := pm2_answer w [Some "jlist"] in
  let svc := resolvePm2ServiceName e in
  let w1 := (w ++ [pm2 ["jlist"]])%list in
  code res = 0 ->
  JSON_parse (stdout res) = Some (JArr items) ->
  forallb (fun p => negb (nullish p)) items = true ->
  (entry_named svc items = None -> readPm2ServiceCommand e w = (Ok None, w1))
  /\ (forall props envp rest,
        entry_named svc items = Some (JObj props) ->
        assoc "pm2_env" props = JObj envp ->
        assoc "args" envp = JArr rest
        \/ (truthy (assoc "args" envp) = false /\ rest = []) ->
        readPm2ServiceCommand e w =
        (Ok (Some (mkSnapshot
                     (assoc "exec_interpreter" envp :: assoc "pm_exec_path" envp :: rest)
                     (assoc "cwd" envp) (assoc "env" envp) JUndefined)), w1)).
Proof.
  intros res svc w1 Hj Hparse Hitems.
  pose proof (readPm2ServiceCommand_run e w) as R. cbv zeta in R.
  fold res in R. rewrite Hj in R. cbn [Z.eqb negb] in R. fold svc in R.
  rewrite R. clear R. split.
  - intros Hnone. unfold command_of_jlist, parse. rewrite Hparse. cbn [rbind].
    rewrite (find_app_entry items svc Hitems), Hnone. reflexivity.
  - intros props envp rest Hfound Henv Hargs.
    rewrite (command_of_jlist_found _ _ _ _ _ Hparse Hitems Hfound Henv).
    destruct Hargs as [Ha|[Ha ->]]; rewrite Ha; reflexivity.
Qed.

(** X6.  The [args] of the entry are spread into the program
    arguments: when PM2 reports them as one non-empty string, every
    character of it becomes a program argument of its own; when they are
    any other truthy value that is neither an array nor a string (a
    number, [true], an object), the spread throws and the result is
    [null]. *)
Theorem readPm2ServiceCommand_spreads_args (e : Env) (w : World) (items : list JsVal)
    (props envp : list (string * JsVal)) :
  let res := pm2_answer w [Some "jlist"] in
  let svc := resolvePm2ServiceName e in
  let w1 := (w ++ [pm2 ["jlist"]])%list in
  code res = 0 ->
  JSON_parse (stdout res) = Some (JArr items) ->
  forallb (fun p => negb (nullish p)) items = true ->
  entry_named svc items = Some (JObj props) ->
  assoc "pm2_env" props = JObj envp ->
  (forall s, assoc "args" envp = JStr s -> s <> "" ->
     readPm2ServiceCommand e w =
     (Ok (Some (mkSnapshot
                  (assoc "exec_interpreter" envp :: assoc "pm_exec_path" envp :: chars s)
                  (assoc "cwd" envp) (assoc "env" envp) JUndefined)), w1))
  /\ (truthy (assoc "args" envp) = true ->
      (forall l, assoc "args" envp <> JArr l) ->
      (forall s, assoc "args" envp <> JStr s) ->
      readPm2ServiceCommand e w = (Ok None, w1)).
Proof.
  intros res svc w1 Hj Hparse Hitems Hfound Henv.
  pose proof (readPm2ServiceCommand_run e w) as R. cbv zeta in R.
  fold res in R. rewrite Hj in R. cbn [Z.eqb negb] in R. fold svc in R.
  rewrite R. clear R.
  rewrite (command_of_jlist_found _ _ _ _ _ Hparse Hitems Hfound Henv).
  split.
  - intros s Ha Hs. rewrite Ha. cbn [truthy].
    apply String.eqb_neq in Hs. rewrite Hs. reflexivity.
  - intros Ht Hl Hs. rewrite Ht.
    destruct (assoc "args" envp) as [| |b|n|s|l|o]; try reflexivity.
    + now contradiction (Hs s).
    + now contradiction (Hl l).
Qed.

(** X7.  The queries of the PM2 adapter only query: whatever the host
    answers, [isPm2Available], [isPm2ServiceEnabled],
    [readPm2ServiceRuntime] and [readPm2ServiceCommand] add to the history
    nothing but spawns of [pm2 --version], [pm2 jlist] and
    [pm2 describe <svc>]; they never start, stop, delete or save
    anything, and write nothing to the output. *)
Theorem pm2_queries_only_query (e : Env) (w : World) :
  let svc := resolvePm2ServiceName e in
  (exists added, snd (isPm2Available w) = (w ++ added)%list
                 /\ Forall (query_event svc) added)
  /\ (exists added, snd (isPm2ServiceEnabled (Some e) w) = (w ++ added)%list
                    /\ Forall (query_event svc) added)
  /\ (exists added, snd (readPm2ServiceRuntime e w) = (w ++ added)%list
                    /\ Forall (query_event svc) added)
  /\ (exists added, snd (readPm2ServiceCommand e w) = (w ++ added)%list
                    /\ Forall (query_event svc) added).
Proof.
  cbv zeta. unfold query_event. repeat split.
  - rewrite isPm2Available_run. eexists. split; [reflexivity|].
    repeat constructor.
  - unfold isPm2ServiceEnabled. run_pm2.
    destruct (code (pm2_answer w [Some "--version"]) =? 0); cbn [negb].
    + run_pm2. norm_world. eexists. split; [reflexivity|].
      constructor; [now left|]. constructor; [right; right; reflexivity|constructor].
    + eexists. split; [reflexivity|]. repeat constructor.
  - pose proof (readPm2ServiceRuntime_run e w) as R. cbv zeta in R. rewrite R.
    destruct (code (pm2_answer w [Some "--version"]) =? 0).
    + exists [pm2 ["--version"]; pm2 ["jlist"]]. split.
      * destruct (negb _); [reflexivity|]. destruct (runtime_of_jlist _ _); reflexivity.
      * constructor; [now left|]. constructor; [right; now left|constructor].
    + eexists. split; [reflexivity|]. repeat constructor.
  - rewrite readPm2ServiceCommand_run. eexists. split; [reflexivity|].
    constructor; [right; now left|constructor].
Qed.

(** X8.  For the status, only the first entry with the name of the
    service counts: entries of other processes in front of it are stepped
    over, and nothing behind it is looked at, be it a further instance of
    the service or [null]. *)
Theorem readPm2ServiceRuntime_first_entry (e : Env) (w : World)
    (pre rest : list JsVal) (props envp : list (string * JsVal)) :
  let svc := resolvePm2ServiceName e in
  let res := pm2_answer (w ++ [pm2 ["--version"]])%list [Some "jlist"] in
  code (pm2_answer w [Some "--version"]) = 0 ->
  code res = 0 ->
  JSON_parse (stdout res) = Some (JArr (pre ++ JObj props :: rest)%list) ->
  forallb (skipped svc) pre = true ->
  named svc (JObj props) = true ->
  assoc "pm2_env" props = JObj envp ->
  readPm2ServiceRuntime e w =
  (Ok (mkRuntime
         (if strict_eq_str (assoc "status" envp) "online" then running else stopped)
         (assoc "status" envp) (assoc "pid" props) (assoc "exit_code" envp) None None),
   (w ++ [pm2 ["--version"]; pm2 ["jlist"]])%list).
Proof.
  intros svc res Hv Hj Hparse Hpre Hnamed Henv.
  pose proof (readPm2ServiceRuntime_run e w) as R. cbv zeta in R.
  rewrite Hv in R. fold res in R. rewrite Hj in R. cbn [Z.eqb negb] in R.
  rewrite R. clear R. fold svc.
  unfold runtime_of_jlist, parse. rewrite Hparse. cbn [rbind].
  rewrite (find_app_scan svc pre _ rest Hpre Hnamed). cbn [rbind truthy negb get].
  rewrite Henv. reflexivity.
Qed.

(** X9.  A [null] in the process list in front of the entry of the
    service makes both queries give up: the status is [unknown], without
    detail, and the command is [null], although the service is listed. *)
Theorem null_entry_before_service (e : Env) (pre rest : list JsVal) (p : JsVal) :
  let svc := resolvePm2ServiceName e in
  forallb (skipped svc) pre = true ->
  nullish p = true ->
  (forall w,
     let res := pm2_answer (w ++ [pm2 ["--version"]])%list [Some "jlist"] in
     code (pm2_answer w [Some "--version"]) = 0 ->
     code res = 0 ->
     JSON_parse (stdout res) = Some (JArr (pre ++ p :: rest)%list) ->
     readPm2ServiceRuntime e w =
     (Ok (unknown_because None), (w ++ [pm2 ["--version"]; pm2 ["jlist"]])%list))
  /\ (forall w,
        let res := pm2_answer w [Some "jlist"] in
        code res = 0 ->
        JSON_parse (stdout res) = Some (JArr (pre ++ p :: rest)%list) ->
        readPm2ServiceCommand e w = (Ok None, (w ++ [pm2 ["jlist"]])%list)).
Proof.
  intros svc Hpre Hp.
  destruct (find_app_null svc pre p rest Hpre Hp) as [err Hfind].
  split.
  - intros w res Hv Hj Hparse.
    pose proof (readPm2ServiceRuntime_run e w) as R. cbv zeta in R.
    rewrite Hv in R. fold res in R. rewrite Hj in R. cbn [Z.eqb negb] in R.
    rewrite R. clear R. fold svc.
    unfold runtime_of_jlist, parse. rewrite Hparse. cbn [rbind].
    rewrite Hfind. reflexivity.
  - intros w res Hj Hparse.
    pose proof (readPm2ServiceCommand_run e w) as R. cbv zeta in R.
    fold res in R. rewrite Hj in R. cbn [Z.eqb negb] in R. fold svc in R.
    rewrite R. clear R.
    unfold command_of_jlist, parse. rewrite Hparse. cbn [rbind].
    rewrite Hfind. reflexivity.
Qed.

(** X10.  [installPm2Service] does not check its program arguments:
    given fewer than two of them it still deletes the registered service
    and then spawns [pm2 start] with [undefined] in the place of the
    script (and of the interpreter, when there is none), whatever
    happens afterwards. *)
Theorem installPm2Service_short_arguments (a : GatewayServiceInstallArgs) (w : World) :
  code (pm2_answer w [Some "--version"]) = 0 ->
  (length (programArguments a) < 2)%nat ->
  let svc := resolvePm2ServiceName (env a) in
  exists result later,
    installPm2Service a w =
    (result,
     (w ++ [pm2 ["--version"]; pm2 ["delete"; svc];
            EvExec "pm2" [Some "start"; None; Some "--name"; Some svc;
                          Some "--interpreter"; hd_error (programArguments a); Some "--"]]
        ++ later)%list).
Proof.
  intros Hv Hlen svc.
  pose proof (installPm2Service_run a w Hv) as R. cbv zeta in R. fold svc in R.
  assert (Hshape : nth_error (programArguments a) 1 = None
                   /\ nth_error (programArguments a) 0 = hd_error (programArguments a)
                   /\ skipn 2 (programArguments a) = []).
  { destruct (programArguments a) as [|x [|y l]]; cbn in Hlen |- *; try lia; auto. }
  destruct Hshape as (E1 & E0 & E2). rewrite E1, E0, E2 in R. revert R. norm_world.
  intros R. rewrite R. clear R.
  match goal with |- context [code ?r =? 0] => destruct (code r =? 0) end; cbn [negb].
  - match goal with |- context [code ?r =? 0] => destruct (code r =? 0) end; cbn [negb].
    + eexists. eexists (_ :: _ :: _ :: nil). reflexivity.
    + eexists. eexists (_ :: nil). reflexivity.
  - eexists. exists nil. reflexivity.
Qed.

(** X20.  The PM2 adapter reads nothing of the environment it is
    given but [CLAWDBOT_PROFILE]: with two environments that agree on it,
    every operation behaves the same, so that what one call installs
    another call finds; and [stop] and [restart] called without an
    environment behave as with the empty one. *)
Theorem pm2_profile_only (e1 e2 : Env) (a1 a2 : GatewayServiceInstallArgs) (w : World) :
  e1 "CLAWDBOT_PROFILE" = e2 "CLAWDBOT_PROFILE" ->
  env a1 = e1 -> env a2 = e2 -> programArguments a1 = programArguments a2 ->
  installPm2Service a1 w = installPm2Service a2 w
  /\ uninstallPm2Service e1 w = uninstallPm2Service e2 w
  /\ stopPm2Service (Some e1) w = stopPm2Service (Some e2) w
  /\ restartPm2Service (Some e1) w = restartPm2Service (Some e2) w
  /\ isPm2ServiceEnabled (Some e1) w = isPm2ServiceEnabled (Some e2) w
  /\ readPm2ServiceRuntime e1 w = readPm2ServiceRuntime e2 w
  /\ readPm2ServiceCommand e1 w = readPm2ServiceCommand e2 w
  /\ stopPm2Service None w = stopPm2Service (Some empty_env) w
  /\ restartPm2Service None w = restartPm2Service (Some empty_env) w.
Proof.
  intros Hp H1 H2 Ha.
  assert (Hn : resolvePm2ServiceName e1 = resolvePm2ServiceName e2)
    by (unfold resolvePm2ServiceName; now rewrite Hp).
  unfold installPm2Service, uninstallPm2Service, stopPm2Service, restartPm2Service,
    isPm2ServiceEnabled, readPm2ServiceRuntime, readPm2ServiceCommand.
  rewrite H1, H2, Ha, Hn. repeat split.
Qed.

(** X21.  With PM2 installed, [uninstallPm2Service] always completes:
    whatever [pm2 delete] exits with (the service may never have been
    registered) it goes on to [pm2 save], whatever that exits with it
    reports the service as removed, and it does not throw. *)
Theorem uninstallPm2Service_reports_removal (e : Env) (w : World) :
  code (pm2_answer w [Some "--version"]) = 0 ->
  let svc := resolvePm2ServiceName e in
  uninstallPm2Service e w =
  (Ok tt, (w ++ [pm2 ["--version"]; pm2 ["delete"; svc]; pm2 ["save"];
                 EvWrite (formatLine "Removed PM2 service" svc ++ String "010" "")])%list).
Proof.
  intros Hv svc. unfold uninstallPm2Service.
  rewrite (bind_ok _ _ _ _ _ (assertPm2Available_ok w Hv)).
  run_pm2. unfold stdout_write. norm_world. reflexivity.
Qed.

End Pm2CommandExtras.

(* ================================================================== *)
(** * More on the resolver on linux *)
(* ================================================================== *)

Lemma bind_ret {A B} (a : A) (k : A -> M B) w : bind (ret a) k w = k a w.
Proof. reflexivity. Qed.

Lemma bind_option_id {A} (m : M (option A)) w :
  bind m (fun x => match x with Some c => ret (Some c) | None => ret None end) w = m w.
Proof. unfold bind, ret. destruct (m w) as [[[c|]|err] w']; reflexivity. Qed.

Section LinuxExtras.
Context `{Host} `{Systemd}.

(** X11.  On linux [install] goes to systemd-user when its probe
    answers true, and PM2 is then not even probed; otherwise it probes
    PM2 and installs through PM2 when that is available, and through
    systemd-user all the same when it is not, so that the caller gets
    the error of systemd-user rather than silence. *)
Theorem linux_install_precedence (sa pa : bool) (args : GatewayServiceInstallArgs) :
  answers isSystemdUserServiceAvailable sa ->
  pm2_availability pa ->
  forall w, exists w1,
    isSystemdUserServiceAvailable w = (Ok sa, w1)
    /\ linux_install args w =
       if sa then installSystemdService args w1
       else if pa then installPm2Service args (w1 ++ [pm2 ["--version"]])%list
       else installSystemdService args (w1 ++ [pm2 ["--version"]])%list.
Proof.
  intros Hsa Hpa w. destruct (Hsa w) as [w1 E1]. exists w1. split; [exact E1|].
  unfold linux_install. rewrite (bind_ok _ _ _ _ _ E1).
  destruct sa; [reflexivity|].
  run_pm2. rewrite Hpa. destruct pa; reflexivity.
Qed.

(** X12.  On linux [isLoaded] answers true exactly when systemd-user is
    available and has the service enabled, or PM2 is available and has
    it.  When systemd-user has it, the answer is given right after the
    two probes of systemd-user: PM2 is not asked. *)
Theorem linux_isLoaded_either (sa se pa pe : bool) (args : option Env) :
  answers isSystemdUserServiceAvailable sa ->
  answers (isSystemdServiceEnabled args) se ->
  answers isPm2Available pa ->
  answers (isPm2ServiceEnabled args) pe ->
  forall w,
    (exists w1, linux_isLoaded args w = (Ok ((sa && se) || (pa && pe)), w1))
    /\ (sa && se = true ->
        exists w1 w2,
          isSystemdUserServiceAvailable w = (Ok true, w1)
          /\ isSystemdServiceEnabled args w1 = (Ok true, w2)
          /\ linux_isLoaded args w = (Ok true, w2)).
Proof.
  intros Hsa Hse Hpa Hpe w. split.
  - unfold linux_isLoaded. probe Hsa.
    assert (Hpm : forall w2, exists w3,
      (pm <- isPm2Available ;;
       en2 <- (if pm then isPm2ServiceEnabled args else ret false) ;;
       (if en2 then ret true else ret false)) w2 = (Ok (pa && pe), w3)).
    { intros w2. probe Hpa. destruct pa; cbn [andb].
      - probe Hpe. destruct pe; now eexists.
      - rewrite bind_ret. now eexists. }
    destruct sa; cbn [andb orb].
    + probe Hse. destruct se; cbn [orb]; [now eexists | apply Hpm].
    + rewrite bind_ret. apply Hpm.
  - intros Hboth. apply andb_prop in Hboth as [-> ->].
    destruct (Hsa w) as [w1 E1]. destruct (Hse w1) as [w2 E2].
    exists w1, w2. split; [exact E1|]. split; [exact E2|].
    unfold linux_isLoaded.
    rewrite (bind_ok _ _ _ _ _ E1), (bind_ok _ _ _ _ _ E2). reflexivity.
Qed.

(** X13.  On linux [readCommand] returns the command systemd-user has
    for the unit when systemd-user is available and has one; otherwise it
    returns what [readPm2ServiceCommand] returns when PM2 is available,
    and [null] when it is not. *)
Theorem linux_readCommand_first (sa pa : bool) (unit_command : option CommandSnapshot)
    (e : Env) :
  answers isSystemdUserServiceAvailable sa ->
  answers (readSystemdServiceExecStart e) unit_command ->
  answers isPm2Available pa ->
  forall w, exists w1,
    linux_readCommand e w =
    match (if sa then unit_command else None) with
    | Some c => (Ok (Some c), w1)
    | None => if pa then readPm2ServiceCommand e w1 else (Ok None, w1)
    end.
Proof.
  intros Hsa Hcmd Hpa w. unfold linux_readCommand. probe Hsa.
  assert (Hpm : forall w2, exists w3,
    (pm <- isPm2Available ;;
     cmd2 <- (if pm then readPm2ServiceCommand e else ret None) ;;
     match cmd2 with Some c => ret (Some c) | None => ret None end) w2 =
    (if pa then readPm2ServiceCommand e w3 else (Ok None, w3))).
  { intros w2. probe Hpa. destruct pa.
    - rewrite bind_option_id. now eexists.
    - rewrite bind_ret. now eexists. }
  destruct sa.
  - probe Hcmd. destruct unit_command as [c|]; [now eexists | apply Hpm].
  - rewrite bind_ret. apply Hpm.
Qed.

End LinuxExtras.

Section LinuxIndependence.
Context `{Host}.

(** X14.  When the probe of systemd-user answers false, the queries
    and [uninstall] of linux call no other function of the systemd-user
    adapter: two adapters with that answer of the probe give the same
    results and the same histories, whatever their other functions do. *)
Theorem linux_skips_unavailable_systemd (S1 S2 : Systemd) (e : Env) (oe : option Env)
    (w w1 : World) :
  @isSystemdUserServiceAvailable S1 w = (Ok false, w1) ->
  @isSystemdUserServiceAvailable S2 w = (Ok false, w1) ->
  @linux_readRuntime _ S1 e w = @linux_readRuntime _ S2 e w
  /\ @linux_readCommand _ S1 e w = @linux_readCommand _ S2 e w
  /\ @linux_isLoaded _ S1 oe w = @linux_isLoaded _ S2 oe w
  /\ @linux_uninstall _ S1 e w = @linux_uninstall _ S2 e w.
Proof.
  intros E1 E2.
  unfold linux_readRuntime, linux_readCommand, linux_isLoaded, linux_uninstall.
  rewrite !(bind_ok _ _ _ _ _ E1), !(bind_ok _ _ _ _ _ E2).
  repeat split.
Qed.

End LinuxIndependence.

(* ================================================================== *)
(** * More on the proxy-fetch module *)
(* ================================================================== *)

Module ProxyFetchMore.
Import ProxyFetch.

Lemma first_nonempty_cons (x : option string) rest :
  first_nonempty (x :: rest) =
  if String.eqb (string_or_empty x) "" then first_nonempty rest
  else Some (string_or_empty x).
Proof. destruct x as [s|]; reflexivity. Qed.

Lemma first_nonempty_nonempty candidates u :
  first_nonempty candidates = Some u -> u <> "".
Proof.
  induction candidates as [|[s|] rest IH]; cbn; try discriminate; try exact IH.
  destruct (String.eqb_spec s ""); [exact IH|]. now intros [= <-].
Qed.

Lemma env_proxy_first (process_env : Env) :
  env_proxy process_env = first_nonempty (map process_env proxy_variables).
Proof.
  unfold env_proxy, proxy_variables, str_or. cbn [map].
  rewrite !first_nonempty_cons. cbn [first_nonempty].
  destruct (String.eqb (string_or_empty (process_env "HTTPS_PROXY")) "") eqn:E1;
    [|now rewrite E1].
  destruct (String.eqb (string_or_empty (process_env "HTTP_PROXY")) "") eqn:E2;
    [|now rewrite E2].
  destruct (String.eqb (string_or_empty (process_env "https_proxy")) "") eqn:E3;
    [|now rewrite E3].
  reflexivity.
Qed.

(** X15.  [resolveProxyUrl] returns the first non-empty candidate out
    of: the configured proxy with surrounding whitespace removed, then
    the environment variables HTTPS_PROXY, HTTP_PROXY, https_proxy and
    http_proxy, taken as they are; and [undefined] when there is none.  A
    configured proxy of whitespace only counts as absent, an environment
    variable set to the empty string as unset. *)
Theorem resolveProxyUrl_first_candidate (process_env : Env) (configProxy : option string) :
  resolveProxyUrl process_env configProxy =
  first_nonempty (option_map trim configProxy :: map process_env proxy_variables).
Proof.
  unfold resolveProxyUrl. rewrite env_proxy_first.
  destruct configProxy as [c|]; cbn [option_map first_nonempty]; [|reflexivity].
  destruct (String.eqb (trim c) ""); reflexivity.
Qed.

(** X16.  [resolveProxyUrl] never returns the empty string: a caller
    that tests the result for truthiness loses no proxy. *)
Theorem resolveProxyUrl_never_empty (process_env : Env) (configProxy : option string)
    (url : string) :
  resolveProxyUrl process_env configProxy = Some url -> url <> "".
Proof.
  unfold resolveProxyUrl. rewrite env_proxy_first.
  destruct configProxy as [c|]; cbn [option_map].
  - destruct (String.eqb_spec (trim c) ""); cbn [negb].
    + apply first_nonempty_nonempty.
    + now intros [= <-].
  - apply first_nonempty_nonempty.
Qed.

Section Registry.
Context `{Undici}.

(** X17.  [uninstallProxyFetch] is idempotent in every state, and
    changes nothing in a state where no proxy is installed. *)
Theorem uninstallProxyFetch_idempotent (s : State) :
  uninstallProxyFetch (uninstallProxyFetch s) = uninstallProxyFetch s
  /\ (proxyInstalled s = false -> uninstallProxyFetch s = s).
Proof.
  unfold uninstallProxyFetch. destruct s as [[f|] [|] u g]; cbn; auto.
  split; [reflexivity | discriminate].
Qed.

(** X18.  In a state reached from the initial one, whatever was
    installed before, [installProxyFetch(v)] ends in one of two states:
    when the agent for [v] can be built, [v] is the installed proxy, the
    global fetch goes through that agent and the saved original is the
    fetch of the runtime; when building the agent throws, the error
    reaches the caller and no proxy is installed any more, the global
    fetch being the fetch of the runtime again, also when another proxy
    was installed before the call. *)
Theorem installProxyFetch_outcome (f0 : Fetch) (calls : list Call) (v : string) :
  installProxyFetch v (run calls (initial f0)) =
  match ProxyAgent v with
  | Ok agent => (Ok tt, mkState (Some f0) true (Some v) (wrapped_proxyFetch agent))
  | Throw err => (Throw err, mkState (Some f0) false None f0)
  end.
Proof.
  pose proof (ProxyFetchFacts.reachable_consistent f0 calls) as Hc.
  destruct (run calls (initial f0)) as [o i u g].
  unfold ProxyFetch.consistent in Hc. cbn in Hc.
  unfold installProxyFetch. cbn [proxyInstalled installedProxyUrl].
  destruct i.
  - destruct Hc as (-> & u0 & agent0 & -> & Ha & ->). cbn [same_url].
    destruct (String.eqb_spec u0 v) as [->|Hne].
    + rewrite Ha. reflexivity.
    + unfold install_fresh, uninstallProxyFetch. cbn.
      destruct (ProxyAgent v); reflexivity.
  - destruct Hc as (-> & -> & Ho).
    unfold install_fresh. cbn.
    destruct (ProxyAgent v); reflexivity.
Qed.

(** X19.  Proxies never stack.  In every state reached from the
    initial one, either no proxy is installed and the global fetch is the
    fetch of the runtime, or the global fetch is the proxy fetch built on
    the agent of the one recorded URL and the saved original is the fetch
    of the runtime; the saved original is never itself a proxy fetch put
    there by an earlier install. *)
Theorem proxies_never_stack (f0 : Fetch) (calls : list Call) :
  let s := run calls (initial f0) in
  ((proxyInstalled s = false /\ installedProxyUrl s = None /\ globalThis_fetch s = f0)
   \/ (exists u agent,
         ProxyAgent u = Ok agent
         /\ s = mkState (Some f0) true (Some u) (wrapped_proxyFetch agent)))
  /\ (originalFetch s = None \/ originalFetch s = Some f0).
Proof.
  intros s. pose proof (ProxyFetchFacts.reachable_consistent f0 calls) as Hc.
  fold s in Hc. destruct s as [o i u g].
  unfold ProxyFetch.consistent in Hc. cbn in Hc |- *.
  destruct i.
  - destruct Hc as (-> & u0 & agent0 & -> & Ha & ->). split; [|now right].
    right. exists u0, agent0. auto.
  - destruct Hc as (-> & -> & Ho). split; [now left | exact Ho].
Qed.

End Registry.
End ProxyFetchMore.

(* ================================================================== *)
(** * The further statements on concrete hosts *)
(* ================================================================== *)

Module MoreScenarios.
Import Fixture MoreFixtures.

Lemma pm2_operations_require_pm2_witness :
  @installPm2Service no_pm2 gw_install [] =
  (Throw (Error not_available), [pm2 ["--version"]]).
Proof.
  apply (@pm2_operations_require_pm2 no_pm2 gw_install empty_env None []).
  vm_compute. discriminate.
Defined.

Lemma isPm2ServiceEnabled_describe_witness :
  @isPm2ServiceEnabled no_pm2 None [] = (Ok false, [pm2 ["--version"]]).
Proof.
  apply (proj1 (@isPm2ServiceEnabled_describe no_pm2 None [])).
  vm_compute. discriminate.
Defined.

Lemma readPm2ServiceCommand_never_throws_witness :
  exists r,
    @readPm2ServiceCommand no_pm2 empty_env [] = (Ok r, [pm2 ["jlist"]]) /\ r = None.
Proof.
  destruct (@readPm2ServiceCommand_never_throws no_pm2 empty_env []) as [r [E Hr]].
  exists r. split; [exact E|]. apply Hr. left. vm_compute. discriminate.
Defined.

Lemma readPm2ServiceCommand_snapshot_witness :
  @readPm2ServiceCommand registered empty_env [] =
  (Ok (Some (mkSnapshot [JStr "node"; JStr "/app/gw.js"; JStr "--port"; JStr "3000"]
               (JStr "/app") JUndefined JUndefined)),
   [pm2 ["jlist"]]).
Proof.
  exact (proj2 (@readPm2ServiceCommand_snapshot registered empty_env []
                  [JObj registered_entry] eq_refl eq_refl eq_refl)
           registered_entry registered_env [JStr "--port"; JStr "3000"]
           eq_refl eq_refl (or_introl eq_refl)).
Defined.

Lemma readPm2ServiceCommand_spreads_args_witness :
  @readPm2ServiceCommand string_args empty_env [] =
  (Ok (Some (mkSnapshot [JStr "node"; JStr "/app/gw.js"; JStr "-"; JStr "v"]
               JUndefined JUndefined JUndefined)),
   [pm2 ["jlist"]]).
Proof.
  apply (proj1 (@readPm2ServiceCommand_spreads_args string_args empty_env []
                  [JObj [("name", JStr "svc"); ("pm2_env", JObj string_args_env)]]
                  [("name", JStr "svc"); ("pm2_env", JObj string_args_env)] string_args_env
                  eq_refl eq_refl eq_refl eq_refl eq_refl) "-v" eq_refl).
  discriminate.
Defined.

Lemma readPm2ServiceRuntime_first_entry_witness :
  @readPm2ServiceRuntime (MoreFixtures.host (listing cluster_text)) empty_env [] =
  (Ok (mkRuntime running (JStr "online") JUndefined JUndefined None None),
   [pm2 ["--version"]; pm2 ["jlist"]]).
Proof.
  exact (@readPm2ServiceRuntime_first_entry (MoreFixtures.host (listing cluster_text))
           empty_env [] [entry "web" "errored"] [entry "svc" "stopped"]
           [("name", JStr "svc"); ("pm2_env", JObj [("status", JStr "online")])]
           [("status", JStr "online")]
           eq_refl eq_refl eq_refl eq_refl eq_refl eq_refl).
Defined.

Lemma null_entry_before_service_witness :
  @readPm2ServiceRuntime null_first empty_env [] =
  (Ok (unknown_because None), [pm2 ["--version"]; pm2 ["jlist"]]).
Proof.
  exact (proj1 (@null_entry_before_service null_first empty_env
                  [] [entry "svc" "online"] JNull eq_refl eq_refl)
           [] eq_refl eq_refl eq_refl).
Defined.

Lemma installPm2Service_short_arguments_witness :
  exists result later,
    @installPm2Service pm2_online bare_install [] =
    (result,
     ([pm2 ["--version"]; pm2 ["delete"; "svc"];
       EvExec "pm2" [Some "start"; None; Some "--name"; Some "svc";
                     Some "--interpreter"; Some "node"; Some "--"]] ++ later)%list).
Proof.
  apply (@installPm2Service_short_arguments pm2_online bare_install [] eq_refl).
  cbn. lia.
Defined.

Lemma linux_install_precedence_witness :
  exists w1,
    @isSystemdUserServiceAvailable systemd_off [] = (Ok false, w1)
    /\ @linux_install pm2_only systemd_off gw_install [] =
       @installPm2Service pm2_only gw_install (w1 ++ [pm2 ["--version"]])%list.
Proof.
  exact (@linux_install_precedence pm2_only systemd_off false true gw_install
           (Scenarios.systemd_probe_answers _ _ _ _) (fun w => eq_refl) []).
Defined.

Lemma linux_isLoaded_either_witness :
  exists w1, @linux_isLoaded pm2_only systemd_enabled None [] = (Ok true, w1).
Proof.
  exact (proj1 (@linux_isLoaded_either pm2_only systemd_enabled true true true false None
                  (Scenarios.systemd_probe_answers _ _ _ _)
                  (Scenarios.systemd_enabled_answers _ _ _ _ _)
                  Scenarios.pm2_only_available (Scenarios.pm2_only_not_enabled _) [])).
Defined.

Lemma linux_readCommand_first_witness :
  exists w1,
    @linux_readCommand registered systemd_no_unit empty_env [] =
    @readPm2ServiceCommand registered empty_env w1.
Proof.
  exact (@linux_readCommand_first registered systemd_no_unit true true None empty_env
           (Scenarios.systemd_probe_answers _ _ _ _)
           (fun w => ex_intro _ w eq_refl)
           (fun w => ex_intro _ _ eq_refl) []).
Defined.

Lemma linux_skips_unavailable_systemd_witness :
  @linux_readRuntime pm2_online systemd_off empty_env [] =
  @linux_readRuntime pm2_online systemd_unreachable_throwing empty_env [].
Proof.
  exact (proj1 (@linux_skips_unavailable_systemd pm2_online systemd_off
                  systemd_unreachable_throwing empty_env None [] [] eq_refl eq_refl)).
Defined.

(** A blank configuration and an empty HTTPS_PROXY are passed over. *)
Example resolveProxyUrl_falls_back :
  ProxyFetch.resolveProxyUrl proxy_env (Some "  ") = Some "http://10.0.0.1:3128".
Proof. reflexivity. Qed.

Lemma resolveProxyUrl_never_empty_witness :
  ProxyFetch.resolveProxyUrl proxy_env (Some "  ") = Some "http://10.0.0.1:3128"
  /\ "http://10.0.0.1:3128" <> "".
Proof.
  split; [reflexivity|].
  exact (@ProxyFetchMore.resolveProxyUrl_never_empty proxy_env (Some "  ")
           "http://10.0.0.1:3128" eq_refl).
Defined.

Lemma uninstallProxyFetch_idempotent_witness :
  @ProxyFetch.uninstallProxyFetch undici (@ProxyFetch.initial undici native_fetch) =
  @ProxyFetch.initial undici native_fetch.
Proof.
  exact (proj2 (@ProxyFetchMore.uninstallProxyFetch_idempotent undici
                  (@ProxyFetch.initial undici native_fetch)) eq_refl).
Defined.

(** Installing on a URL the agent cannot be built on, while a proxy is
    installed, leaves no proxy behind. *)
Example failed_install_removes_proxy :
  @ProxyFetch.installProxyFetch undici ""
    (@ProxyFetch.run undici [ProxyFetch.call_install "http://127.0.0.1:7890"]
       (@ProxyFetch.initial undici native_fetch)) =
  (Throw (mkExn "InvalidArgumentError" (Some "Proxy uri is mandatory") None None None),
   @ProxyFetch.mkState undici (Some native_fetch) false None native_fetch).
Proof. reflexivity. Qed.

Lemma pm2_profile_only_witness :
  @stopPm2Service pm2_only (Some proxy_env) [] = @stopPm2Service pm2_only (Some empty_env) [].
Proof.
  exact (proj1 (proj2 (proj2 (@pm2_profile_only pm2_only proxy_env empty_env
           (mkInstallArgs proxy_env ["node"] None None None) bare_install []
           eq_refl eq_refl eq_refl eq_refl)))).
Defined.

(** The service was never registered: [delete] exits with 1. *)
Lemma uninstallPm2Service_reports_removal_witness :
  @uninstallPm2Service pm2_only empty_env [] =
  (Ok tt, [pm2 ["--version"]; pm2 ["delete"; "svc"]; pm2 ["save"];
           EvWrite ("Removed PM2 service: svc" ++ String "010" "")]).
Proof.
  exact (@uninstallPm2Service_reports_removal pm2_only empty_env [] eq_refl).
Defined.

End MoreScenarios.
